(** * OpenTelemetry tracing API: span contexts, the global tracer, samplers

    A shallow embedding of [opentelemetry/trace/__init__.py] and
    [opentelemetry/trace/sampling.py].

    - Python [int] is [Z] (unbounded), [float] is the kernel's binary64
      [float], [str] is [string], a [dict] keyed by strings is a [gmap].
    - Code that raises, or that mutates module globals or objects, runs in
      the state-and-exception monad [Py S]: a raised exception keeps the
      state reached so far, as in Python.
    - Objects that are shared by reference (the [Decision] held by a
      [StaticSampler], samplers with a mutable rate, attribute dicts) live
      in an object store addressed by locations. *)

From Stdlib Require Import ZArith Lia Bool List Ascii String Floats.
From stdpp Require Import base option list gmap strings.

Local Open Scope Z_scope.

(** ** Python run-time notions used by the two modules *)

Module Python.

(** The exception classes that the modelled code can raise. *)
Inductive exn : Type :=
| ValueError
| OverflowError
| TypeError
| AttributeError
| NameError
| RuntimeError (msg : string).

Inductive outcome (A : Type) : Type :=
| Return (a : A)
| Raise (e : exn).
Arguments Return {A} a.
Arguments Raise {A} e.

(** A computation over a mutable state [S]. *)
Definition Py (S A : Type) : Type := S -> outcome A * S.

Definition ret {S A} (a : A) : Py S A := fun s => (Return a, s).

Definition bind {S A B} (m : Py S A) (k : A -> Py S B) : Py S B :=
  fun s =>
    match m s with
    | (Return a, s') => k a s'
    | (Raise e, s') => (Raise e, s')
    end.

Definition raise {S A} (e : exn) : Py S A := fun s => (Raise e, s).

Definition get {S} : Py S S := fun s => (Return s, s).

Definition put {S} (s : S) : Py S unit := fun _ => (Return tt, s).

(** An expression that may raise but touches no state. *)
Definition lift {S A} (o : outcome A) : Py S A := fun s => (o, s).

(** [bool(x)] of an [Optional]: [None] is false, and an object has the
    truth value [bool_of] that its class gives it ([__bool__], else
    [__len__] being non-zero, else true). *)
Definition truthy {A} (bool_of : A -> bool) (x : option A) : bool :=
  match x with
  | Some a => bool_of a
  | None => false
  end.

(** *** [int] to [float], [float] times [int], [round(float)] *)

(** [float(n)]: the nearest binary64 value, ties to even; an [int] too
    large for a float raises [OverflowError]. *)
Definition float_of_int (n : Z) : outcome float :=
  let f := SF2Prim (binary_normalize prec emax n 0 false) in
  if is_infinity f then Raise OverflowError else Return f.

(** [x * n] for a float [x] and an int [n]. *)
Definition float_mul_int (x : float) (n : Z) : outcome float :=
  match float_of_int n with
  | Return f => Return (x * f)%float
  | Raise e => Raise e
  end.

(** The integer nearest to [m / 2^k], ties to the even one. *)
Definition round_half_even_div (m : Z) (k : Z) : Z :=
  let q := m / 2 ^ k in
  let r := m mod 2 ^ k in
  match 2 * r ?= 2 ^ k with
  | Lt => q
  | Gt => q + 1
  | Eq => if Z.even q then q else q + 1
  end.

(** [round(x)] with one argument: an [int], ties to even; [ValueError]
    on a NaN and [OverflowError] on an infinity. *)
Definition round (x : float) : outcome Z :=
  match Prim2SF x with
  | S754_nan => Raise ValueError
  | S754_infinity _ => Raise OverflowError
  | S754_zero _ => Return 0
  | S754_finite s m e =>
      let a := if 0 <=? e then Z.pos m * 2 ^ e
               else round_half_even_div (Z.pos m) (- e) in
      Return (if s then - a else a)
  end.

(** *** [format(n, "0Wx")] for an [int] *)

Definition hex_digit (d : Z) : ascii :=
  match d with
  | 0 => "0" | 1 => "1" | 2 => "2" | 3 => "3"
  | 4 => "4" | 5 => "5" | 6 => "6" | 7 => "7"
  | 8 => "8" | 9 => "9" | 10 => "a" | 11 => "b"
  | 12 => "c" | 13 => "d" | 14 => "e" | _ => "f"
  end%char.

(** The [k] least significant hexadecimal digits of [n], most
    significant first. *)
Fixpoint hex_digits (k : nat) (n : Z) : list ascii :=
  match k with
  | O => []
  | S k' => hex_digits k' (n / 16) ++ [hex_digit (n mod 16)]
  end.

(** Number of hexadecimal digits of [n >= 0]: one for [0], otherwise
    the bit length rounded up to a multiple of four, over four. *)
Definition hex_width (n : Z) : nat :=
  if n =? 0 then 1%nat else Z.to_nat ((Z.log2 n + 1 + 3) / 4).

(** [format(n, "x")] of a non-negative [n]. *)
Definition hex (n : Z) : list ascii := hex_digits (hex_width n) n.

(** [format(n, "0Wx")]: sign first, then zeros up to a total width of
    [W], then the digits; never truncated. *)
Definition format_0x (width : nat) (n : Z) : list ascii :=
  let sign := if n <? 0 then ["-"%char] else [] in
  let digits := hex (Z.abs n) in
  sign ++ repeat "0"%char (width - length sign - length digits) ++ digits.

End Python.

Import Python.

Declare Scope py_scope.
Delimit Scope py_scope with py.
Notation "x <- m ;; k" := (bind m (fun x => k))
  (at level 100, m at next level, right associativity) : py_scope.
Notation "m ;;; k" := (bind m (fun _ => k))
  (at level 100, right associativity) : py_scope.

(** ** [opentelemetry/trace/__init__.py] *)

Module trace.

(** [TraceOptions(int)]: a bitmask. *)
Module TraceOptions.
Definition t : Type := Z.
Definition DEFAULT : Z := 0x00.
Definition SAMPLED : Z := 0x01.
Definition get_default : t := DEFAULT.
Definition sampled (self : t) : bool := negb (Z.land self SAMPLED =? 0).
End TraceOptions.

Definition DEFAULT_TRACE_OPTIONS : TraceOptions.t := TraceOptions.get_default.

(** [TraceState(Dict[str, str])]. *)
Module TraceState.
Definition t : Type := gmap string string.
Definition get_default : t := ∅.
End TraceState.

Definition DEFAULT_TRACE_STATE : TraceState.t := TraceState.get_default.

Definition format_trace_id (trace_id : Z) : string :=
  string_of_list_ascii (["0"; "x"]%char ++ format_0x 32 trace_id).

Definition format_span_id (span_id : Z) : string :=
  string_of_list_ascii (["0"; "x"]%char ++ format_0x 16 span_id).

Definition INVALID_SPAN_ID : Z := 0x0000000000000000.
Definition INVALID_TRACE_ID : Z := 0x00000000000000000000000000000000.

Module SpanContext.
Record t : Type := mk {
  trace_id : Z;
  span_id : Z;
  trace_options : TraceOptions.t;
  trace_state : TraceState.t
}.

Definition __init__ (trace_id span_id : Z)
    (trace_options : option TraceOptions.t)
    (trace_state : option TraceState.t) : t :=
  let trace_options :=
    match trace_options with
    | None => DEFAULT_TRACE_OPTIONS
    | Some o => o
    end in
  let trace_state :=
    match trace_state with
    | None => DEFAULT_TRACE_STATE
    | Some s => s
    end in
  mk trace_id span_id trace_options trace_state.

Section Repr.
(** [repr] of the trace state, a [dict] subclass: the built-in's. *)
Variable repr_dict : TraceState.t -> string.

Definition __repr__ (self : t) : string :=
  "SpanContext" +:+ "(trace_id=" +:+ format_trace_id (trace_id self)
    +:+ ", span_id=" +:+ format_span_id (span_id self)
    +:+ ", trace_state=" +:+ repr_dict (trace_state self) +:+ ")".
End Repr.

Definition is_valid (self : t) : bool :=
  negb (trace_id self =? INVALID_TRACE_ID)
  && negb (span_id self =? INVALID_SPAN_ID).
End SpanContext.

(** Modelled from the spec: [opentelemetry.util.types.AttributeValue],
    which is not part of the modelled files; the spec gives it as "a
    constrained value union (string, boolean, numeric, or homogeneous
    array thereof)". *)
Inductive AttributeValue : Type :=
| AttrStr (s : string)
| AttrBool (b : bool)
| AttrInt (n : Z)
| AttrFloat (f : float)
| AttrStrs (l : list string)
| AttrBools (l : list bool)
| AttrInts (l : list Z)
| AttrFloats (l : list float).

(** [types.Attributes]: an optional dict. *)
Definition Attributes : Type := option (gmap string AttributeValue).

Module Link.
Record t : Type := mk {
  _context : SpanContext.t;
  _attributes : Attributes
}.
Definition __init__ (context : SpanContext.t) (attributes : Attributes) : t :=
  mk context attributes.
Definition context (self : t) : SpanContext.t := _context self.
Definition attributes (self : t) : Attributes := _attributes self.
End Link.

(** Instances of [Span] and of its subclass [DefaultSpan]. *)
Inductive span : Type :=
| BaseSpan
| DefaultSpanObj (_context : SpanContext.t).

(** The methods of the base class have a docstring for a body: they
    return [None]. *)
Module Span.
Definition get_context : option SpanContext.t := None.
Definition is_recording_events : option bool := None.
End Span.

Module DefaultSpan.
Definition __init__ (context : SpanContext.t) : span := DefaultSpanObj context.
Definition get_context (_context : SpanContext.t) : option SpanContext.t :=
  Some _context.
Definition is_recording_events : option bool := Some false.
End DefaultSpan.

(** Method calls on a span, resolved by the class of the receiver. *)
Definition get_context (self : span) : option SpanContext.t :=
  match self with
  | BaseSpan => Span.get_context
  | DefaultSpanObj c => DefaultSpan.get_context c
  end.

Definition is_recording_events (self : span) : option bool :=
  match self with
  | BaseSpan => Span.is_recording_events
  | DefaultSpanObj _ => DefaultSpan.is_recording_events
  end.

Definition INVALID_SPAN_CONTEXT : SpanContext.t :=
  SpanContext.__init__ INVALID_TRACE_ID INVALID_SPAN_ID
    (Some DEFAULT_TRACE_OPTIONS) (Some DEFAULT_TRACE_STATE).

Definition INVALID_SPAN : span := DefaultSpan.__init__ INVALID_SPAN_CONTEXT.

(** The methods of [Tracer] use no field of their receiver, whatever
    its type [T]. *)
Module Tracer.
Definition CURRENT_SPAN : span := BaseSpan.
Definition get_current_span {T : Type} (self : T) : span := INVALID_SPAN.
Definition start_span {T P K : Type} (self : T) (name : string)
    (parent : P) (kind : K) : span := INVALID_SPAN.
Definition create_span {T P K : Type} (self : T) (name : string)
    (parent : P) (kind : K) : span := INVALID_SPAN.
End Tracer.

(** A module-level name: bound to a value, or deleted by [del]. *)
Inductive binding (A : Type) : Type :=
| Bound (v : A)
| Unbound.
Arguments Bound {A} v.
Arguments Unbound {A}.

(** The two globals [_TRACER] and [_TRACER_FACTORY]. *)
Record globals (T F : Type) : Type := mk_globals {
  _TRACER : option T;
  _TRACER_FACTORY : binding (option F)
}.
Arguments mk_globals {T F} _ _.
Arguments _TRACER {T F} _.
Arguments _TRACER_FACTORY {T F} _.

(** The module's globals after import. *)
Definition initial_globals {T F : Type} : globals T F :=
  mk_globals None (Bound None).

Section GlobalTracer.
(** Tracer instances and implementation factories. *)
Variables T F : Type.

(** [loader._load_impl(Tracer, factory)], from
    [opentelemetry.util.loader]: it hands back a tracer, or raises. *)
Variable _load_impl : option F -> outcome T.

(** [bool(t)] of a tracer instance: class [Tracer] defines neither
    [__bool__] nor [__len__], so its own instances are true; the class of
    an implementation may define either. *)
Variable tracer_bool : T -> bool.

(** Reading a global name. *)
Definition read_TRACER_FACTORY : Py (globals T F) (option F) :=
  fun g =>
    match _TRACER_FACTORY g with
    | Bound f => (Return f, g)
    | Unbound => (Raise NameError, g)
    end.

Definition tracer : Py (globals T F) (option T) :=
  (g <- get ;;
   match _TRACER g with
   | None =>
       f <- read_TRACER_FACTORY ;;
       t <- lift (_load_impl f) ;;
       g <- get ;;
       put (mk_globals (Some t) (_TRACER_FACTORY g)) ;;;
       g <- get ;;
       put (mk_globals (_TRACER g) Unbound)
   | Some _ => ret tt
   end ;;;
   g <- get ;;
   ret (_TRACER g))%py.

Definition set_preferred_tracer_implementation (factory : F)
    : Py (globals T F) unit :=
  (g <- get ;;
   if truthy tracer_bool (_TRACER g)
   then raise (RuntimeError "Tracer already loaded.")
   else put (mk_globals (_TRACER g) (Bound (Some factory))))%py.
End GlobalTracer.


End trace.

Import trace.

(** ** [opentelemetry/trace/sampling.py] *)

Module sampling.

(** *** The object store *)

Definition loc : Type := nat.

(** The objects of the module: attribute dicts, decisions and the two
    kinds of sampler, each with the fields its class assigns. *)
Inductive object : Type :=
| ODict (items : gmap string AttributeValue)
| ODecision (sampled : bool) (attributes : loc)
| OStaticSampler (_decision : loc)
| OProbabilitySampler (_rate : float) (_bound : Z).

Abbreviation heap := (list object).

(** A new object gets the next free location. *)
Definition alloc (o : object) : Py heap loc :=
  fun h => (Return (length h), h ++ [o]).

Definition load (l : loc) : Py heap object :=
  fun h =>
    match h !! l with
    | Some o => (Return o, h)
    | None => (Raise TypeError, h)
    end.

Definition store (l : loc) (o : object) : Py heap unit :=
  fun h => (Return tt, <[l := o]> h).

(** *** class Decision *)

Module Decision.
(** The call [Decision(sampled, attributes)]: a new object, then the
    body of [__init__]; [attributes] is [None] or a mapping, which
    [dict(attributes)] copies into a new dict. *)
Definition __init__ (sampled : bool) (attributes : option loc)
    : Py heap loc :=
  (a <- match attributes with
        | None => alloc (ODict ∅)
        | Some m =>
            o <- load m ;;
            match o with
            | ODict items => alloc (ODict items)
            | _ => raise TypeError
            end
        end ;;
   alloc (ODecision sampled a))%py.

(** Attribute reads and writes, as client code performs them. *)
Definition get_sampled (self : loc) : Py heap bool :=
  (o <- load self ;;
   match o with
   | ODecision s _ => ret s
   | _ => raise AttributeError
   end)%py.

Definition get_attributes (self : loc) : Py heap loc :=
  (o <- load self ;;
   match o with
   | ODecision _ a => ret a
   | _ => raise AttributeError
   end)%py.

Definition set_sampled (self : loc) (v : bool) : Py heap unit :=
  (o <- load self ;;
   match o with
   | ODecision _ a => store self (ODecision v a)
   | _ => raise AttributeError
   end)%py.

Definition set_attributes (self : loc) (a : loc) : Py heap unit :=
  (o <- load self ;;
   match o with
   | ODecision s _ => store self (ODecision s a)
   | _ => raise AttributeError
   end)%py.
End Decision.

(** [d[key] = value] on a dict. *)
Definition dict_setitem (d : loc) (key : string) (value : AttributeValue)
    : Py heap unit :=
  (o <- load d ;;
   match o with
   | ODict items => store d (ODict (<[key := value]> items))
   | _ => raise TypeError
   end)%py.

(** *** class StaticSampler *)

Module StaticSampler.
Definition __init__ (decision : loc) : Py heap loc :=
  alloc (OStaticSampler decision).

Definition should_sample (self : loc)
    (parent_context : option SpanContext.t) (trace_id span_id : Z)
    (name : string) (links : list Link.t) : Py heap loc :=
  (o <- load self ;;
   match o with
   | OStaticSampler _decision => ret _decision
   | _ => raise AttributeError
   end)%py.
End StaticSampler.

(** *** class ProbabilitySampler *)

Module ProbabilitySampler.
Definition CHECK_BYTES : Z := 0xFFFFFFFFFFFFFFFF.

Definition get_bound_for_rate (rate : float) : outcome Z :=
  match float_mul_int rate (CHECK_BYTES + 1) with
  | Return x => round x
  | Raise e => Raise e
  end.

(** The call [ProbabilitySampler(rate)]. The object under
    construction is reachable only once [__init__] has returned, so
    it enters the store with both fields set; when the bound cannot
    be computed the exception leaves no sampler behind. *)
Definition __init__ (rate : float) : Py heap loc :=
  (b <- lift (get_bound_for_rate rate) ;;
   alloc (OProbabilitySampler rate b))%py.

Definition rate (self : loc) : Py heap float :=
  (o <- load self ;;
   match o with
   | OProbabilitySampler r _ => ret r
   | _ => raise AttributeError
   end)%py.

(** Assignments to the two fields. *)
Definition set__rate (self : loc) (v : float) : Py heap unit :=
  (o <- load self ;;
   match o with
   | OProbabilitySampler _ b => store self (OProbabilitySampler v b)
   | _ => raise AttributeError
   end)%py.

Definition set__bound (self : loc) (v : Z) : Py heap unit :=
  (o <- load self ;;
   match o with
   | OProbabilitySampler r _ => store self (OProbabilitySampler r v)
   | _ => raise AttributeError
   end)%py.

(** The setter of the [rate] property. *)
Definition set_rate (self : loc) (new_rate : float) : Py heap unit :=
  (set__rate self new_rate ;;;
   r <- rate self ;;
   b <- lift (get_bound_for_rate r) ;;
   set__bound self b)%py.

Definition bound (self : loc) : Py heap Z :=
  (o <- load self ;;
   match o with
   | OProbabilitySampler _ b => ret b
   | _ => raise AttributeError
   end)%py.

Definition should_sample (self : loc)
    (parent_context : option SpanContext.t) (trace_id span_id : Z)
    (name : string) (links : list Link.t) : Py heap loc :=
  match parent_context with
  | Some pc =>
      Decision.__init__
        (TraceOptions.sampled (SpanContext.trace_options pc)) None
  | None =>
      (b <- bound self ;;
       Decision.__init__ (Z.land trace_id CHECK_BYTES <? b) None)%py
  end.
End ProbabilitySampler.

(** *** class Sampler: the abstract method, resolved by the class of
    the receiver *)

Module Sampler.
Definition should_sample (self : loc)
    (parent_context : option SpanContext.t) (trace_id span_id : Z)
    (name : string) (links : list Link.t) : Py heap loc :=
  (o <- load self ;;
   match o with
   | OStaticSampler _ =>
       StaticSampler.should_sample self parent_context trace_id span_id
         name links
   | OProbabilitySampler _ _ =>
       ProbabilitySampler.should_sample self parent_context trace_id
         span_id name links
   | _ => raise AttributeError
   end)%py.
End Sampler.

(** *** The module-level samplers *)

Record samplers : Type := mk_samplers {
  ALWAYS_OFF : loc;
  ALWAYS_ON : loc;
  DEFAULT_OFF : loc;
  DEFAULT_ON : loc
}.

(** What importing the module executes. *)
Definition module_init : Py heap samplers :=
  (d_off <- Decision.__init__ false None ;;
   always_off <- StaticSampler.__init__ d_off ;;
   d_on <- Decision.__init__ true None ;;
   always_on <- StaticSampler.__init__ d_on ;;
   default_off <- ProbabilitySampler.__init__ 0%float ;;
   default_on <- ProbabilitySampler.__init__ 1%float ;;
   ret (mk_samplers always_off always_on default_off default_on))%py.

(** *** Observing a decision *)

(** The [sampled] flag of the decision at [d] and the items of its
    attribute dict. *)
Definition decision_view (h : heap) (d : loc)
    : option (bool * gmap string AttributeValue) :=
  match h !! d with
  | Some (ODecision s a) =>
      match h !! a with
      | Some (ODict items) => Some (s, items)
      | _ => None
      end
  | _ => None
  end.

End sampling.

Import sampling.

(** * Vocabulary of the statements *)

(** The flag that a probability sampler with bound [b] computes. *)
Definition sampled_for (b : Z) (parent_context : option SpanContext.t)
    (trace_id : Z) : bool :=
  match parent_context with
  | Some pc => TraceOptions.sampled (SpanContext.trace_options pc)
  | None => Z.land trace_id ProbabilitySampler.CHECK_BYTES <? b
  end.

(** The invariant of a probability sampler stored at [self]: its bound is
    what [get_bound_for_rate] returns on its rate. *)
Definition bound_invariant (h : list object) (self : loc) : Prop :=
  exists r b,
    h !! self = Some (OProbabilitySampler r b)
    /\ ProbabilitySampler.get_bound_for_rate r = Return b.

(** What client code can do to a decision [d] it was handed: assign its
    [sampled] field, assign its [attributes] field, or set an item of its
    attribute dict. *)
Inductive mutation : Type :=
| SetSampled (v : bool)
| SetAttributes (a : loc)
| SetItem (key : string) (value : AttributeValue).

Definition mutate (d : loc) (m : mutation) : Py (list object) unit :=
  match m with
  | SetSampled v => Decision.set_sampled d v
  | SetAttributes a => Decision.set_attributes d a
  | SetItem key value =>
      (a <- Decision.get_attributes d ;; dict_setitem a key value)%py
  end.

Fixpoint mutate_all (d : loc) (ms : list mutation)
    : Py (list object) unit :=
  match ms with
  | [] => ret tt
  | m :: ms' => (mutate d m ;;; mutate_all d ms')%py
  end.

(** Mutating the decision [d] does not affect later calls on [self]:
    whatever is done to [d], the next call of [should_sample] answers
    with a decision of the same content as it would have without. *)
Definition later_calls_unaffected (h : list object) (self d : loc) : Prop :=
  forall (ms : list mutation) (hm : list object)
         (pc : option SpanContext.t) (t s : Z) (name : string)
         (links : list Link.t) (d1 d2 : loc) (h1 h2 : list object),
    mutate_all d ms h = (Return tt, hm) ->
    Sampler.should_sample self pc t s name links h = (Return d1, h1) ->
    Sampler.should_sample self pc t s name links hm = (Return d2, h2) ->
    decision_view h1 d1 = decision_view h2 d2.

(** The value of a string of hexadecimal digits. *)
Definition hex_digit_value (c : ascii) : Z :=
  match c with
  | "0" => 0 | "1" => 1 | "2" => 2 | "3" => 3
  | "4" => 4 | "5" => 5 | "6" => 6 | "7" => 7
  | "8" => 8 | "9" => 9 | "a" => 10 | "b" => 11
  | "c" => 12 | "d" => 13 | "e" => 14 | "f" => 15
  | _ => 0
  end%char.

Definition is_hex_digit (c : ascii) : bool :=
  existsb (Ascii.eqb c) (list_ascii_of_string "0123456789abcdef").

Definition hex_value (l : list ascii) : Z :=
  fold_left (fun acc c => 16 * acc + hex_digit_value c) l 0.

(** A client's call on the global tracer API. *)
Inductive call (F : Type) : Type :=
| CallTracer
| CallSetPreferred (factory : F).
Arguments CallTracer {F}.
Arguments CallSetPreferred {F} factory.

Section GlobalCalls.
Variables T F : Type.
Variable _load_impl : option F -> outcome T.
Variable tracer_bool : T -> bool.

(** The globals after a call whose result, or exception, the client
    dropped. *)
Definition run_call (g : globals T F) (c : call F) : globals T F :=
  match c with
  | CallTracer => snd (tracer T F _load_impl g)
  | CallSetPreferred factory =>
      snd (set_preferred_tracer_implementation T F tracer_bool factory g)
  end.

Definition run_calls (cs : list (call F)) (g : globals T F) : globals T F :=
  fold_left run_call cs g.
End GlobalCalls.

(** Reading back a rendered integer: an optional sign, then hexadecimal
    digits. *)
Definition signed_hex_value (l : list ascii) : Z :=
  match l with
  | c :: digits =>
      if Ascii.eqb c "-" then - hex_value digits else hex_value l
  | [] => 0
  end.

(** The integer nearest to [m * 2^E], ties to the even one. *)
Definition nearest_integer_scaled (m E : Z) : Z :=
  if 0 <=? E then m * 2 ^ E else round_half_even_div m (- E).

(** * Properties *)

(** C1: a [SpanContext] built from trace id [t] and span id [s] is valid
    exactly when neither id is its reserved zero value. *)
Theorem is_valid_iff_nonzero_ids (t s : Z)
    (o : option TraceOptions.t) (st : option TraceState.t) :
  (SpanContext.is_valid (SpanContext.__init__ t s o st) = true
     <-> t <> INVALID_TRACE_ID /\ s <> INVALID_SPAN_ID)
  /\ INVALID_TRACE_ID = 0 /\ INVALID_SPAN_ID = 0.
Proof.
  split; [| split; reflexivity].
  unfold SpanContext.is_valid; simpl.
  rewrite andb_true_iff, !negb_true_iff, !Z.eqb_neq.
  reflexivity.
Qed.

(** ** The object store *)

Lemma lookup_fresh (h : list object) : h !! length h = None.
Proof. apply lookup_ge_None. lia. Qed.

Lemma Decision_init_run (v : bool) (h : list object) :
  Decision.__init__ v None h
  = (Return (S (length h)), h ++ [ODict ∅; ODecision v (length h)]).
Proof.
  unfold Decision.__init__, bind, alloc.
  rewrite length_app, <- app_assoc. simpl.
  replace (length h + 1)%nat with (S (length h)) by lia.
  reflexivity.
Qed.

Lemma decision_view_new (v : bool) (h : list object) :
  decision_view (h ++ [ODict ∅; ODecision v (length h)]) (S (length h))
  = Some (v, ∅).
Proof.
  unfold decision_view.
  rewrite (lookup_app_r h _ (S (length h))) by lia.
  replace (S (length h) - length h)%nat with 1%nat by lia. simpl.
  rewrite (lookup_app_r h _ (length h)) by lia.
  rewrite Nat.sub_diag. reflexivity.
Qed.

Lemma get_sampled_new (v : bool) (h : list object) :
  Decision.get_sampled (S (length h))
    (h ++ [ODict ∅; ODecision v (length h)])
  = (Return v, h ++ [ODict ∅; ODecision v (length h)]).
Proof.
  unfold Decision.get_sampled, bind, load.
  rewrite (lookup_app_r h _ (S (length h))) by lia.
  replace (S (length h) - length h)%nat with 1%nat by lia.
  reflexivity.
Qed.

(** ** ProbabilitySampler.should_sample, run on a sampler object *)

Lemma bound_run (h : list object) (self : loc) (r : float) (b : Z) :
  h !! self = Some (OProbabilitySampler r b) ->
  ProbabilitySampler.bound self h = (Return b, h).
Proof.
  intros Hs. unfold ProbabilitySampler.bound, bind, load.
  rewrite Hs. reflexivity.
Qed.

Lemma should_sample_run (h : list object) (self : loc) (r : float) (b : Z)
    (pc : option SpanContext.t) (t s : Z) (name : string)
    (links : list Link.t) :
  h !! self = Some (OProbabilitySampler r b) ->
  Sampler.should_sample self pc t s name links h
  = (Return (S (length h)),
     h ++ [ODict ∅; ODecision (sampled_for b pc t) (length h)]).
Proof.
  intros Hs. unfold Sampler.should_sample, bind at 1. unfold load at 1.
  rewrite Hs. unfold ProbabilitySampler.should_sample.
  destruct pc as [pc |]; simpl sampled_for.
  - apply Decision_init_run.
  - unfold bind. rewrite (bound_run h self r b Hs).
    apply Decision_init_run.
Qed.

Lemma land_CHECK_BYTES (t : Z) :
  Z.land t ProbabilitySampler.CHECK_BYTES = t mod 2 ^ 64.
Proof.
  change ProbabilitySampler.CHECK_BYTES with (Z.ones 64).
  apply Z.land_ones. lia.
Qed.

Lemma sampled_is_bit_0 (o : TraceOptions.t) :
  TraceOptions.sampled o = Z.testbit o 0.
Proof.
  unfold TraceOptions.sampled, TraceOptions.SAMPLED.
  change 1 with (Z.ones 1). rewrite Z.land_ones by lia.
  change (2 ^ 1) with 2. rewrite Zmod_odd, Z.bit0_odd.
  destruct (Z.odd o); reflexivity.
Qed.

(** C2: on a root span (no parent context) a probability sampler
    answers with a decision whose [sampled] field is true exactly when
    the trace id masked with [0xFFFFFFFFFFFFFFFF] is below the stored
    bound; the masked value is the trace id modulo [2^64], so two trace
    ids with the same low 64 bits get the same answer. *)
Theorem root_decision_compares_low_64_bits (h : list object) (self : loc)
    (r : float) (b : Z) (t s : Z) (name : string) (links : list Link.t)
    (Hself : h !! self = Some (OProbabilitySampler r b)) :
  ProbabilitySampler.bound self h = (Return b, h)
  /\ exists d h' v,
       Sampler.should_sample self None t s name links h = (Return d, h')
       /\ Decision.get_sampled d h' = (Return v, h')
       /\ (v = true <-> Z.land t 0xFFFFFFFFFFFFFFFF < b)
       /\ (v = true <-> t mod 2 ^ 64 < b)
       /\ forall t' s' name' links',
            t' mod 2 ^ 64 = t mod 2 ^ 64 ->
            exists d' h'',
              Sampler.should_sample self None t' s' name' links' h
              = (Return d', h'')
              /\ Decision.get_sampled d' h'' = (Return v, h'').
Proof.
  split; [exact (bound_run h self r b Hself) |].
  exists (S (length h)),
    (h ++ [ODict ∅; ODecision (sampled_for b None t) (length h)]),
    (sampled_for b None t).
  split; [apply should_sample_run with (r := r); exact Hself |].
  split; [apply get_sampled_new |].
  simpl sampled_for.
  split; [apply Z.ltb_lt |].
  split; [rewrite land_CHECK_BYTES; apply Z.ltb_lt |].
  intros t' s' name' links' Ht.
  eexists _, _.
  split; [apply should_sample_run with (r := r); exact Hself |].
  simpl sampled_for. rewrite (land_CHECK_BYTES t'), Ht, <- land_CHECK_BYTES.
  apply get_sampled_new.
Qed.

Lemma root_decision_compares_low_64_bits_witness :
  [OProbabilitySampler 0.5 (2 ^ 63)] !! 0%nat
    = Some (OProbabilitySampler 0.5 (2 ^ 63))
  /\ exists d h' v,
       Sampler.should_sample 0%nat None (2 ^ 64 + 5) 7 "root" []
         [OProbabilitySampler 0.5 (2 ^ 63)] = (Return d, h')
       /\ Decision.get_sampled d h' = (Return v, h')
       /\ (v = true <-> Z.land (2 ^ 64 + 5) 0xFFFFFFFFFFFFFFFF < 2 ^ 63).
Proof.
  split; [reflexivity |].
  destruct (root_decision_compares_low_64_bits
              [OProbabilitySampler 0.5 (2 ^ 63)] 0%nat 0.5%float (2 ^ 63)
              (2 ^ 64 + 5) 7 "root" [] eq_refl)
    as [_ (d & h' & v & H1 & H2 & H3 & _)].
  exists d, h', v. auto.
Defined.

(** C3: with a parent context, a probability sampler of any rate and
    bound answers with the parent's sampled flag (bit 0 of its trace
    options), whatever the trace id, span id, name and links. *)
Theorem child_decision_follows_parent (h : list object) (self : loc)
    (r : float) (b : Z) (pc : SpanContext.t) (t s : Z) (name : string)
    (links : list Link.t)
    (Hself : h !! self = Some (OProbabilitySampler r b)) :
  exists d h',
    Sampler.should_sample self (Some pc) t s name links h = (Return d, h')
    /\ Decision.get_sampled d h'
       = (Return (TraceOptions.sampled (SpanContext.trace_options pc)), h')
    /\ TraceOptions.sampled (SpanContext.trace_options pc)
       = Z.testbit (SpanContext.trace_options pc) 0.
Proof.
  eexists _, _.
  split; [apply should_sample_run with (r := r); exact Hself |].
  split; [apply get_sampled_new | apply sampled_is_bit_0].
Qed.

Lemma child_decision_follows_parent_witness :
  [OProbabilitySampler 0 0] !! 0%nat = Some (OProbabilitySampler 0 0)
  /\ exists d h',
       Sampler.should_sample 0%nat
         (Some (SpanContext.__init__ 11 12 (Some TraceOptions.SAMPLED) None))
         3 4 "child" [] [OProbabilitySampler 0 0] = (Return d, h')
       /\ Decision.get_sampled d h' = (Return true, h').
Proof.
  split; [reflexivity |].
  destruct (child_decision_follows_parent
              [OProbabilitySampler 0 0] 0%nat 0%float 0
              (SpanContext.__init__ 11 12 (Some TraceOptions.SAMPLED) None)
              3 4 "child" [] eq_refl)
    as (d & h' & H1 & H2 & _).
  exists d, h'. split; [exact H1 | exact H2].
Defined.

(** ** Bounds and construction *)

Lemma bound_for_rate_0 : ProbabilitySampler.get_bound_for_rate 0 = Return 0.
Proof. vm_compute. reflexivity. Qed.

Lemma bound_for_rate_1 :
  ProbabilitySampler.get_bound_for_rate 1 = Return (2 ^ 64).
Proof. vm_compute. reflexivity. Qed.

Lemma init_run (r : float) (b : Z) (h : list object) :
  ProbabilitySampler.get_bound_for_rate r = Return b ->
  ProbabilitySampler.__init__ r h
  = (Return (length h), h ++ [OProbabilitySampler r b]).
Proof.
  intros Hb. unfold ProbabilitySampler.__init__, bind, lift.
  rewrite Hb. reflexivity.
Qed.

Lemma init_raise (r : float) (e : exn) (h : list object) :
  ProbabilitySampler.get_bound_for_rate r = Raise e ->
  ProbabilitySampler.__init__ r h = (Raise e, h).
Proof.
  intros Hb. unfold ProbabilitySampler.__init__, bind, lift.
  rewrite Hb. reflexivity.
Qed.

Lemma lookup_alloc_new (h : list object) (o : object) :
  (h ++ [o]) !! length h = Some o.
Proof. rewrite lookup_app_r by lia. rewrite Nat.sub_diag. reflexivity. Qed.

Lemma land_CHECK_BYTES_range (t : Z) :
  0 <= Z.land t ProbabilitySampler.CHECK_BYTES < 2 ^ 64.
Proof. rewrite land_CHECK_BYTES. apply Z.mod_pos_bound. lia. Qed.

Lemma module_init_run (h : list object) :
  module_init h
  = (Return (mk_samplers (2 + length h)%nat (5 + length h)%nat
               (6 + length h)%nat (7 + length h)%nat),
     h ++ [ODict ∅; ODecision false (length h);
           OStaticSampler (1 + length h)%nat;
           ODict ∅; ODecision true (3 + length h)%nat;
           OStaticSampler (4 + length h)%nat;
           OProbabilitySampler 0 0; OProbabilitySampler 1 (2 ^ 64)]).
Proof.
  unfold module_init, bind.
  rewrite Decision_init_run.
  unfold StaticSampler.__init__, alloc.
  rewrite Decision_init_run.
  rewrite (init_run 0 0 _ bound_for_rate_0).
  rewrite (init_run 1 (2 ^ 64) _ bound_for_rate_1).
  unfold ret. rewrite !length_app. simpl length.
  rewrite <- !app_assoc. simpl.
  repeat f_equal; lia.
Qed.

(** C5: on a root span, [ProbabilitySampler(0.0)] (bound [0]) never
    samples and [ProbabilitySampler(1.0)] (bound [2^64]) always samples,
    whatever the trace id; so do the module's [DEFAULT_OFF] and
    [DEFAULT_ON]. *)
Theorem rate_0_never_and_rate_1_always_sample_roots (h : list object)
    (t s : Z) (name : string) (links : list Link.t) :
  (exists self h1 d h2,
     ProbabilitySampler.__init__ 0 h = (Return self, h1)
     /\ ProbabilitySampler.bound self h1 = (Return 0, h1)
     /\ Sampler.should_sample self None t s name links h1 = (Return d, h2)
     /\ Decision.get_sampled d h2 = (Return false, h2))
  /\ (exists self h1 d h2,
        ProbabilitySampler.__init__ 1 h = (Return self, h1)
        /\ ProbabilitySampler.bound self h1 = (Return (2 ^ 64), h1)
        /\ Sampler.should_sample self None t s name links h1 = (Return d, h2)
        /\ Decision.get_sampled d h2 = (Return true, h2))
  /\ (exists m h1 d_off h2 d_on h3,
        module_init h = (Return m, h1)
        /\ Sampler.should_sample (DEFAULT_OFF m) None t s name links h1
           = (Return d_off, h2)
        /\ Decision.get_sampled d_off h2 = (Return false, h2)
        /\ Sampler.should_sample (DEFAULT_ON m) None t s name links h1
           = (Return d_on, h3)
        /\ Decision.get_sampled d_on h3 = (Return true, h3)).
Proof.
  pose proof (land_CHECK_BYTES_range t) as Hrange.
  assert (sampled_for 0 None t = false) as H0
    by (apply Z.ltb_ge; lia).
  assert (sampled_for (2 ^ 64) None t = true) as H1
    by (apply Z.ltb_lt; lia).
  split; [| split].
  - eexists _, _, _, _.
    split; [apply (init_run 0 0 h bound_for_rate_0) |].
    split; [apply bound_run with (r := 0%float); apply lookup_alloc_new |].
    split; [apply should_sample_run with (r := 0%float) (b := 0);
            apply lookup_alloc_new |].
    rewrite H0. apply get_sampled_new.
  - eexists _, _, _, _.
    split; [apply (init_run 1 (2 ^ 64) h bound_for_rate_1) |].
    split; [apply bound_run with (r := 1%float); apply lookup_alloc_new |].
    split; [apply should_sample_run with (r := 1%float) (b := 2 ^ 64);
            apply lookup_alloc_new |].
    rewrite H1. apply get_sampled_new.
  - eexists _, _, _, _, _, _.
    split; [apply module_init_run |].
    split; [apply should_sample_run with (r := 0%float) (b := 0);
            cbn [DEFAULT_OFF];
            rewrite lookup_app_r by lia;
            replace (6 + length h - length h)%nat with 6%nat by lia;
            reflexivity |].
    split; [rewrite H0; apply get_sampled_new |].
    split; [apply should_sample_run with (r := 1%float) (b := 2 ^ 64);
            cbn [DEFAULT_ON];
            rewrite lookup_app_r by lia;
            replace (7 + length h - length h)%nat with 7%nat by lia;
            reflexivity |].
    rewrite H1. apply get_sampled_new.
Qed.

(** ** Calls and mutations leave sampler objects alone *)

Lemma should_sample_keeps_store (h : list object) (self : loc) (r : float)
    (b : Z) (pc : option SpanContext.t) (t s : Z) (name : string)
    (links : list Link.t) (d : loc) (h' : list object) :
  h !! self = Some (OProbabilitySampler r b) ->
  Sampler.should_sample self pc t s name links h = (Return d, h') ->
  forall l o, h !! l = Some o -> h' !! l = Some o.
Proof.
  intros Hs Hrun l o Hl.
  rewrite (should_sample_run h self r b pc t s name links Hs) in Hrun.
  injection Hrun as _ <-.
  rewrite lookup_app_l; [exact Hl |].
  eapply lookup_lt_Some; exact Hl.
Qed.

Lemma mutate_keeps_sampler (d : loc) (m : mutation) (h hm : list object)
    (o : outcome unit) (self : loc) (r : float) (b : Z) :
  mutate d m h = (o, hm) ->
  h !! self = Some (OProbabilitySampler r b) ->
  hm !! self = Some (OProbabilitySampler r b).
Proof.
  intros Hm Hs. destruct m as [v | a | key value]; simpl in Hm.
  - unfold Decision.set_sampled, bind, load in Hm.
    destruct (h !! d) as [[| v0 a0 | |] |] eqn:Hd; simpl in Hm;
      injection Hm as _ <-; try exact Hs.
    rewrite list_lookup_insert_ne; [exact Hs | congruence].
  - unfold Decision.set_attributes, bind, load in Hm.
    destruct (h !! d) as [[| v0 a0 | |] |] eqn:Hd; simpl in Hm;
      injection Hm as _ <-; try exact Hs.
    rewrite list_lookup_insert_ne; [exact Hs | congruence].
  - unfold Decision.get_attributes, dict_setitem, bind, load in Hm.
    destruct (h !! d) as [[| v0 a0 | |] |] eqn:Hd; simpl in Hm;
      try (injection Hm as _ <-; exact Hs).
    destruct (h !! a0) as [[items | | |] |] eqn:Ha; simpl in Hm;
      injection Hm as _ <-; try exact Hs.
    rewrite list_lookup_insert_ne; [exact Hs | congruence].
Qed.

Lemma mutate_all_keeps_sampler (d : loc) (ms : list mutation)
    (h hm : list object) (o : outcome unit) (self : loc) (r : float)
    (b : Z) :
  mutate_all d ms h = (o, hm) ->
  h !! self = Some (OProbabilitySampler r b) ->
  hm !! self = Some (OProbabilitySampler r b).
Proof.
  revert h. induction ms as [| m ms IH]; intros h Hm Hs; simpl in Hm.
  - injection Hm as _ <-. exact Hs.
  - unfold bind in Hm.
    destruct (mutate d m h) as [[[] | e] h1] eqn:H1.
    + apply (IH h1 Hm). exact (mutate_keeps_sampler _ _ _ _ _ _ _ _ H1 Hs).
    + injection Hm as _ <-.
      exact (mutate_keeps_sampler _ _ _ _ _ _ _ _ H1 Hs).
Qed.

(** C4: [should_sample] of a probability sampler is deterministic. Two
    successive calls with the same arguments answer with the same
    [sampled] value and leave the sampler as it was; in any two stores
    where the sampler has the same rate and bound the answers agree; and
    two samplers constructed with the same rate have the same bound. *)
Theorem should_sample_deterministic (h : list object) (self : loc)
    (r : float) (b : Z) (pc : option SpanContext.t) (t s : Z)
    (name : string) (links : list Link.t)
    (Hself : h !! self = Some (OProbabilitySampler r b)) :
  (exists d1 h1 d2 h2 v,
     Sampler.should_sample self pc t s name links h = (Return d1, h1)
     /\ Sampler.should_sample self pc t s name links h1 = (Return d2, h2)
     /\ Decision.get_sampled d1 h1 = (Return v, h1)
     /\ Decision.get_sampled d2 h2 = (Return v, h2)
     /\ h1 !! self = Some (OProbabilitySampler r b)
     /\ h2 !! self = Some (OProbabilitySampler r b))
  /\ (forall (h' : list object) (self' : loc),
        h' !! self' = Some (OProbabilitySampler r b) ->
        exists d1 h1 d2 h2 v,
          Sampler.should_sample self pc t s name links h = (Return d1, h1)
          /\ Sampler.should_sample self' pc t s name links h'
             = (Return d2, h2)
          /\ Decision.get_sampled d1 h1 = (Return v, h1)
          /\ Decision.get_sampled d2 h2 = (Return v, h2))
  /\ (forall (g g' : list object) (r' : float) (s1 s2 : loc)
             (g1 g2 : list object),
        ProbabilitySampler.__init__ r' g = (Return s1, g1) ->
        ProbabilitySampler.__init__ r' g' = (Return s2, g2) ->
        exists b',
          g1 !! s1 = Some (OProbabilitySampler r' b')
          /\ g2 !! s2 = Some (OProbabilitySampler r' b')).
Proof.
  pose proof (should_sample_run h self r b pc t s name links Hself) as R1.
  assert ((h ++ [ODict ∅; ODecision (sampled_for b pc t) (length h)])
            !! self = Some (OProbabilitySampler r b)) as Hself1.
  { rewrite lookup_app_l; [exact Hself |].
    eapply lookup_lt_Some; exact Hself. }
  pose proof (should_sample_run _ self r b pc t s name links Hself1) as R2.
  split; [| split].
  - eexists _, _, _, _, (sampled_for b pc t).
    split; [exact R1 |]. split; [exact R2 |].
    split; [apply get_sampled_new |]. split; [apply get_sampled_new |].
    split; [exact Hself1 |].
    rewrite lookup_app_l; [exact Hself1 |].
    eapply lookup_lt_Some; exact Hself1.
  - intros h' self' Hself'.
    eexists _, _, _, _, (sampled_for b pc t).
    split; [exact R1 |].
    split; [exact (should_sample_run h' self' r b pc t s name links Hself') |].
    split; apply get_sampled_new.
  - intros g g' r' s1 s2 g1 g2 I1 I2.
    destruct (ProbabilitySampler.get_bound_for_rate r') as [b' | e] eqn:Hb.
    + rewrite (init_run r' b' g Hb) in I1.
      rewrite (init_run r' b' g' Hb) in I2.
      injection I1 as <- <-. injection I2 as <- <-.
      exists b'. split; apply lookup_alloc_new.
    + rewrite (init_raise r' e g Hb) in I1. discriminate.
Qed.

Lemma should_sample_deterministic_witness :
  exists d1 h1 d2 h2 v,
    Sampler.should_sample 0%nat None 5 7 "root" []
      [OProbabilitySampler 0.5 (2 ^ 63)] = (Return d1, h1)
    /\ Sampler.should_sample 0%nat None 5 7 "root" [] h1 = (Return d2, h2)
    /\ Decision.get_sampled d1 h1 = (Return v, h1)
    /\ Decision.get_sampled d2 h2 = (Return v, h2).
Proof.
  destruct (should_sample_deterministic
              [OProbabilitySampler 0.5 (2 ^ 63)] 0%nat 0.5%float (2 ^ 63)
              None 5 7 "root" [] eq_refl)
    as [(d1 & h1 & d2 & h2 & v & H1 & H2 & H3 & H4 & _) _].
  exists d1, h1, d2, h2, v. auto.
Defined.

(** ** Assigning the rate *)

Lemma set_rate_run (h : list object) (self : loc) (r0 : float) (b0 : Z)
    (r : float) (b : Z) :
  h !! self = Some (OProbabilitySampler r0 b0) ->
  ProbabilitySampler.get_bound_for_rate r = Return b ->
  ProbabilitySampler.set_rate self r h
  = (Return tt, <[self := OProbabilitySampler r b]> h).
Proof.
  intros Hs Hb.
  pose proof (lookup_lt_Some _ _ _ Hs) as Hlt.
  unfold ProbabilitySampler.set_rate, ProbabilitySampler.set__rate,
    ProbabilitySampler.set__bound, ProbabilitySampler.rate,
    bind, load, store, lift, ret.
  rewrite Hs, list_lookup_insert_eq by exact Hlt.
  rewrite Hb, list_lookup_insert_eq by exact Hlt.
  rewrite list_insert_insert_eq. reflexivity.
Qed.

Lemma set_rate_raise (h : list object) (self : loc) (r0 : float) (b0 : Z)
    (r : float) (e : exn) :
  h !! self = Some (OProbabilitySampler r0 b0) ->
  ProbabilitySampler.get_bound_for_rate r = Raise e ->
  ProbabilitySampler.set_rate self r h
  = (Raise e, <[self := OProbabilitySampler r b0]> h).
Proof.
  intros Hs Hb.
  pose proof (lookup_lt_Some _ _ _ Hs) as Hlt.
  unfold ProbabilitySampler.set_rate, ProbabilitySampler.set__rate,
    ProbabilitySampler.set__bound, ProbabilitySampler.rate,
    bind, load, store, lift, ret.
  rewrite Hs, list_lookup_insert_eq by exact Hlt.
  rewrite Hb. reflexivity.
Qed.

Lemma set_rate_returns (h : list object) (self : loc) (r : float)
    (h' : list object) :
  ProbabilitySampler.set_rate self r h = (Return tt, h') ->
  exists r0 b0 b,
    h !! self = Some (OProbabilitySampler r0 b0)
    /\ ProbabilitySampler.get_bound_for_rate r = Return b
    /\ h' = <[self := OProbabilitySampler r b]> h.
Proof.
  intros Hrun.
  destruct (h !! self) as [[| | | r0 b0] |] eqn:Hs;
    try (unfold ProbabilitySampler.set_rate, ProbabilitySampler.set__rate,
           bind, load in Hrun; rewrite Hs in Hrun; discriminate).
  destruct (ProbabilitySampler.get_bound_for_rate r) as [b | e] eqn:Hb.
  - rewrite (set_rate_run h self r0 b0 r b Hs Hb) in Hrun.
    injection Hrun as <-. exists r0, b0, b. auto.
  - rewrite (set_rate_raise h self r0 b0 r e Hs Hb) in Hrun. discriminate.
Qed.

Lemma float_of_CHECK_BYTES_succ :
  float_of_int (ProbabilitySampler.CHECK_BYTES + 1) = Return 0x1p64%float.
Proof. vm_compute. reflexivity. Qed.

Lemma bound_defined_iff (r : float) :
  (exists b, ProbabilitySampler.get_bound_for_rate r = Return b)
  <-> match Prim2SF (r * 0x1p64) with
      | S754_nan | S754_infinity _ => False
      | S754_zero _ | S754_finite _ _ _ => True
      end.
Proof.
  unfold ProbabilitySampler.get_bound_for_rate, float_mul_int.
  rewrite float_of_CHECK_BYTES_succ. unfold round.
  destruct (Prim2SF (r * 0x1p64)) as [sg | sg | | sg m e]; split;
    try (intros _; eexists; reflexivity);
    try (intros [b Hb]; discriminate Hb);
    try (intros []);
    try (intros _; exact I).
Qed.

(** ** Rates between 0.0 and 1.0

    The product of such a rate with [2^64] is a finite float: its
    exponent stays far below the overflow threshold. *)

Lemma digits2_pos_size (p : positive) : digits2_pos p = Pos.size p.
Proof. induction p as [p IH | p IH |]; simpl; rewrite ?IH; reflexivity. Qed.

Lemma digits2_pos_gt (p : positive) : Z.pos p < 2 ^ Z.pos (digits2_pos p).
Proof.
  rewrite digits2_pos_size.
  pose proof (Pos.size_gt p) as H.
  apply Pos2Z.pos_lt_pos in H. rewrite Pos2Z.inj_pow in H. exact H.
Qed.

Lemma Zdigits2_le (z k : Z) : 0 <= z < 2 ^ k -> 0 <= k -> Zdigits2 z <= k.
Proof.
  intros [Hz Hlt] Hk. destruct z as [| p | p]; simpl; [exact Hk | | lia].
  rewrite digits2_pos_size.
  pose proof (Pos.size_le p) as H.
  apply Pos2Z.pos_le_pos in H. rewrite Pos2Z.inj_pow in H.
  change (Z.pos p~0) with (2 * Z.pos p) in H.
  destruct (Z.le_gt_cases (Z.pos (Pos.size p)) k) as [Hle | Hgt];
    [exact Hle |].
  assert (2 * 2 ^ k <= 2 ^ Z.pos (Pos.size p))
    by (rewrite <- Z.pow_succ_r by lia; apply Z.pow_le_mono_r; lia).
  lia.
Qed.

Lemma shr_1_bounds (mrs : shr_record) :
  0 <= shr_m mrs -> 0 <= shr_m (shr_1 mrs) <= shr_m mrs.
Proof.
  destruct mrs as [m r s]. simpl.
  destruct m as [| [p | p |] | p]; simpl; lia.
Qed.

Lemma iter_shr_1_bounds (p : positive) (mrs : shr_record) :
  0 <= shr_m mrs -> 0 <= shr_m (SpecFloat.iter_pos shr_1 p mrs) <= shr_m mrs.
Proof.
  revert mrs. induction p as [p IH | p IH |]; intros mrs H; simpl.
  - pose proof (shr_1_bounds mrs H) as H1.
    pose proof (IH _ (proj1 H1)) as H2.
    pose proof (IH _ (proj1 H2)) as H3. lia.
  - pose proof (IH _ H) as H2.
    pose proof (IH _ (proj1 H2)) as H3. lia.
  - apply shr_1_bounds; exact H.
Qed.

Lemma shr_fexp_bounds (m e : Z) (l : location) :
  0 <= m ->
  0 <= shr_m (fst (shr_fexp prec emax m e l)) <= m
  /\ snd (shr_fexp prec emax m e l)
     = Z.max e (fexp prec emax (Zdigits2 m + e)).
Proof.
  intros Hm. unfold shr_fexp, shr.
  assert (shr_m (shr_record_of_loc m l) = m) as Hrec
    by (destruct l as [| []]; reflexivity).
  destruct (fexp prec emax (Zdigits2 m + e) - e) as [| p | p] eqn:Hn;
    simpl; rewrite ?Hrec.
  - split; lia.
  - pose proof (iter_shr_1_bounds p (shr_record_of_loc m l)) as H.
    rewrite Hrec in H. split; [apply H; exact Hm | lia].
  - split; lia.
Qed.

Lemma round_nearest_even_bounds (m : Z) (l : location) :
  m <= round_nearest_even m l <= m + 1.
Proof.
  unfold round_nearest_even.
  destruct l as [| []]; try destruct (Z.even m); lia.
Qed.

Lemma binary_round_aux_finite (mx ex : Z) :
  0 <= mx < 2 ^ 105 -> ex <= -40 ->
  match binary_round_aux prec emax false mx ex loc_Exact with
  | S754_nan | S754_infinity _ => False
  | S754_zero _ | S754_finite _ _ _ => True
  end.
Proof.
  intros Hmx Hex. unfold binary_round_aux.
  pose proof (shr_fexp_bounds mx ex loc_Exact (proj1 Hmx)) as [Hm1 He1].
  destruct (shr_fexp prec emax mx ex loc_Exact) as [mrs1 e1].
  simpl in Hm1, He1.
  pose proof (round_nearest_even_bounds (shr_m mrs1)
                (loc_of_shr_record mrs1)) as Hr.
  set (m1 := round_nearest_even (shr_m mrs1) (loc_of_shr_record mrs1)) in *.
  assert (0 <= m1) as Hm1pos by lia.
  pose proof (shr_fexp_bounds m1 e1 loc_Exact Hm1pos) as [Hm2 He2].
  destruct (shr_fexp prec emax m1 e1 loc_Exact) as [mrs2 e2].
  simpl in Hm2, He2.
  assert (Zdigits2 mx <= 105) as Hd by (apply Zdigits2_le; lia).
  assert (Zdigits2 m1 <= 106) as Hd1.
  { apply Zdigits2_le; [| lia]. split; [lia |].
    change (2 ^ 106) with (2 * 2 ^ 105). lia. }
  destruct (shr_m mrs2) as [| p | p]; [exact I | | lia].
  assert (e2 <= emax - prec) as Hbound
    by (unfold fexp, emin, prec, emax in *; lia).
  apply Z.leb_le in Hbound. rewrite Hbound. exact I.
Qed.

Lemma rate_in_unit_interval_bound_defined (r : float) :
  (0 <=? r)%float = true -> (r <=? 1)%float = true ->
  exists b, ProbabilitySampler.get_bound_for_rate r = Return b.
Proof.
  intros H0 H1. apply bound_defined_iff.
  rewrite leb_spec in H0, H1. rewrite mul_spec.
  pose proof (Prim2SF_valid r) as Hv.
  change (Prim2SF 0) with (S754_zero false) in H0.
  change (Prim2SF 1) with (S754_finite false 4503599627370496 (-52)) in H1.
  change (Prim2SF 0x1p64) with (S754_finite false 4503599627370496 12).
  destruct (Prim2SF r) as [sg | sg | | sg m e].
  - exact I.
  - destruct sg; discriminate.
  - discriminate.
  - destruct sg; [discriminate |].
    assert (e <= -52) as He.
    { unfold SFleb, SFcompare in H1.
      destruct (Z.compare_spec e (-52)) as [-> | Hlt | Hgt];
        [lia | lia | discriminate]. }
    assert (Z.pos m < 2 ^ 53) as Hm.
    { simpl in Hv. unfold bounded, canonical_mantissa in Hv.
      apply andb_true_iff in Hv. destruct Hv as [Hc _].
      apply Z.eqb_eq in Hc.
      pose proof (digits2_pos_gt m) as Hgt.
      eapply Z.lt_le_trans; [exact Hgt |].
      apply Z.pow_le_mono_r; [lia |].
      unfold fexp, emin, prec, emax in Hc. lia. }
    unfold SF64mul, SFmul. simpl xorb.
    apply binary_round_aux_finite; [| lia].
    rewrite Pos2Z.inj_mul.
    change (Z.pos 4503599627370496) with (2 ^ 52).
    change (2 ^ 105) with (2 ^ 53 * 2 ^ 52). nia.
Qed.

(** C6: a probability sampler keeps its bound equal to
    [round(rate * (CHECK_BYTES + 1))]. For every rate between [0.0] and
    [1.0] the construction and the assignment to [rate] return, and the
    sampler then holds the rate it was given and the bound
    [get_bound_for_rate] computes from it. For any rate, both return
    exactly when that value is defined, that is when the product is
    neither a NaN nor an infinity, and then establish the same. The
    assignment computes the bound at once, and [should_sample] never
    writes the sampler. *)
Theorem bound_follows_rate (h : list object) (r : float) :
  ProbabilitySampler.get_bound_for_rate r
  = match float_mul_int r (0xFFFFFFFFFFFFFFFF + 1) with
    | Return x => round x
    | Raise e => Raise e
    end
  /\ ((exists b, ProbabilitySampler.get_bound_for_rate r = Return b)
      <-> match Prim2SF (r * 0x1p64) with
          | S754_nan | S754_infinity _ => False
          | S754_zero _ | S754_finite _ _ _ => True
          end)
  /\ match ProbabilitySampler.get_bound_for_rate r with
     | Return b =>
         exists self h',
           ProbabilitySampler.__init__ r h = (Return self, h')
           /\ h !! self = None
           /\ h' !! self = Some (OProbabilitySampler r b)
           /\ bound_invariant h' self
     | Raise e => ProbabilitySampler.__init__ r h = (Raise e, h)
     end
  /\ (forall (self : loc) (r0 : float) (b0 : Z),
        h !! self = Some (OProbabilitySampler r0 b0) ->
        match ProbabilitySampler.get_bound_for_rate r with
        | Return b =>
            exists h',
              ProbabilitySampler.set_rate self r h = (Return tt, h')
              /\ h' !! self = Some (OProbabilitySampler r b)
              /\ ProbabilitySampler.rate self h' = (Return r, h')
              /\ ProbabilitySampler.bound self h' = (Return b, h')
              /\ bound_invariant h' self
        | Raise e =>
            exists h', ProbabilitySampler.set_rate self r h = (Raise e, h')
        end)
  /\ (forall (self : loc) (h' : list object),
        ProbabilitySampler.set_rate self r h = (Return tt, h') ->
        bound_invariant h' self
        /\ ProbabilitySampler.rate self h' = (Return r, h'))
  /\ (forall (self : loc) (r0 : float) (b0 : Z)
             (pc : option SpanContext.t) (t s : Z) (name : string)
             (links : list Link.t),
        h !! self = Some (OProbabilitySampler r0 b0) ->
        exists d h',
          Sampler.should_sample self pc t s name links h = (Return d, h')
          /\ h' !! self = Some (OProbabilitySampler r0 b0))
  /\ ((0 <=? r)%float = true -> (r <=? 1)%float = true ->
      (exists self h',
         ProbabilitySampler.__init__ r h = (Return self, h')
         /\ bound_invariant h' self)
      /\ (forall (self : loc) (r0 : float) (b0 : Z),
            h !! self = Some (OProbabilitySampler r0 b0) ->
            exists h',
              ProbabilitySampler.set_rate self r h = (Return tt, h')
              /\ bound_invariant h' self)).
Proof.
  assert (forall (self : loc) (r0 : float) (b0 b : Z),
             h !! self = Some (OProbabilitySampler r0 b0) ->
             <[self := OProbabilitySampler r b]> h !! self
             = Some (OProbabilitySampler r b)) as Hins.
  { intros self r0 b0 b Hs. apply list_lookup_insert_eq.
    eapply lookup_lt_Some; exact Hs. }
  split; [reflexivity |].
  split; [apply bound_defined_iff |].
  split; [| split; [| split; [| split]]].
  - destruct (ProbabilitySampler.get_bound_for_rate r) as [b | e] eqn:Hb.
    + exists (length h), (h ++ [OProbabilitySampler r b]).
      split; [exact (init_run r b h Hb) |].
      split; [apply lookup_fresh |].
      split; [apply lookup_alloc_new |].
      exists r, b. split; [apply lookup_alloc_new | exact Hb].
    + exact (init_raise r e h Hb).
  - intros self r0 b0 Hs.
    destruct (ProbabilitySampler.get_bound_for_rate r) as [b | e] eqn:Hb.
    + exists (<[self := OProbabilitySampler r b]> h).
      pose proof (Hins self r0 b0 b Hs) as Hnew.
      split; [exact (set_rate_run h self r0 b0 r b Hs Hb) |].
      split; [exact Hnew |].
      split; [unfold ProbabilitySampler.rate, bind, load; rewrite Hnew;
              reflexivity |].
      split; [exact (bound_run _ self r b Hnew) |].
      exists r, b. split; [exact Hnew | exact Hb].
    + eexists. exact (set_rate_raise h self r0 b0 r e Hs Hb).
  - intros self h' Hrun.
    destruct (set_rate_returns h self r h' Hrun)
      as (r0 & b0 & b & Hs & Hb & ->).
    pose proof (Hins self r0 b0 b Hs) as Hnew.
    split; [exists r, b; split; [exact Hnew | exact Hb] |].
    unfold ProbabilitySampler.rate, bind, load. rewrite Hnew. reflexivity.
  - intros self r0 b0 pc t s name links Hs.
    eexists _, _.
    split; [exact (should_sample_run h self r0 b0 pc t s name links Hs) |].
    rewrite lookup_app_l; [exact Hs |].
    eapply lookup_lt_Some; exact Hs.
  - intros H0 H1.
    destruct (rate_in_unit_interval_bound_defined r H0 H1) as [b Hb].
    split.
    + exists (length h), (h ++ [OProbabilitySampler r b]).
      split; [exact (init_run r b h Hb) |].
      exists r, b. split; [apply lookup_alloc_new | exact Hb].
    + intros self r0 b0 Hs.
      exists (<[self := OProbabilitySampler r b]> h).
      split; [exact (set_rate_run h self r0 b0 r b Hs Hb) |].
      exists r, b. split; [exact (Hins self r0 b0 b Hs) | exact Hb].
Qed.

Lemma bound_follows_rate_witness :
  exists h',
    ProbabilitySampler.set_rate 0%nat 0.25
      [OProbabilitySampler 0.5 (2 ^ 63)] = (Return tt, h')
    /\ h' !! 0%nat = Some (OProbabilitySampler 0.25 (2 ^ 62))
    /\ bound_invariant h' 0%nat.
Proof.
  destruct (bound_follows_rate [OProbabilitySampler 0.5 (2 ^ 63)] 0.25)
    as (_ & _ & _ & Hset & _).
  specialize (Hset 0%nat 0.5%float (2 ^ 63) eq_refl).
  change (ProbabilitySampler.get_bound_for_rate 0.25)
    with (@Return Z (2 ^ 62)) in Hset.
  destruct Hset as (h' & H1 & H2 & _ & _ & H5).
  exists h'. auto.
Defined.

(** Outside the rates between [0.0] and [1.0]: assigning a NaN rate
    raises [ValueError] after the rate was stored, and the sampler is
    left with the NaN rate and the bound of the old rate. *)
Lemma nan_rate_assignment_breaks_bound_invariant :
  ProbabilitySampler.__init__ 0.5 []
  = (Return 0%nat, [OProbabilitySampler 0.5 (2 ^ 63)])
  /\ bound_invariant [OProbabilitySampler 0.5 (2 ^ 63)] 0%nat
  /\ ProbabilitySampler.set_rate 0%nat nan [OProbabilitySampler 0.5 (2 ^ 63)]
     = (Raise ValueError, [OProbabilitySampler nan (2 ^ 63)])
  /\ ProbabilitySampler.get_bound_for_rate nan = Raise ValueError
  /\ ~ bound_invariant [OProbabilitySampler nan (2 ^ 63)] 0%nat.
Proof.
  split; [vm_compute; reflexivity |].
  split; [exists 0.5%float, (2 ^ 63); split; vm_compute; reflexivity |].
  split; [vm_compute; reflexivity |].
  split; [vm_compute; reflexivity |].
  intros (r & b & Hl & Hb).
  injection Hl as <- <-.
  vm_compute in Hb. discriminate Hb.
Qed.

(** ** The global tracer *)

Section GlobalTracerProperties.
Variables T F : Type.
Variable _load_impl : option F -> outcome T.
Variable tracer_bool : T -> bool.

Lemma tracer_run_cached (g : globals T F) (t : T) :
  _TRACER g = Some t ->
  tracer T F _load_impl g = (Return (Some t), g).
Proof.
  intros Ht. unfold tracer, bind, get, ret. rewrite Ht. simpl.
  rewrite Ht. reflexivity.
Qed.

Lemma tracer_run_load (g : globals T F) (f : option F) :
  _TRACER g = None ->
  _TRACER_FACTORY g = Bound f ->
  tracer T F _load_impl g
  = match _load_impl f with
    | Return t => (Return (Some t), mk_globals (Some t) Unbound)
    | Raise e => (Raise e, g)
    end.
Proof.
  intros Ht Hf.
  unfold tracer, bind, get, ret, put, lift, read_TRACER_FACTORY.
  rewrite Ht, Hf. destruct (_load_impl f); reflexivity.
Qed.

Lemma tracer_caches (g g' : globals T F) (r : option T) :
  tracer T F _load_impl g = (Return r, g') ->
  exists t, r = Some t /\ _TRACER g' = Some t.
Proof.
  intros Hrun. destruct (_TRACER g) as [t |] eqn:Ht.
  - rewrite (tracer_run_cached g t Ht) in Hrun.
    injection Hrun as <- <-. exists t. auto.
  - destruct (_TRACER_FACTORY g) as [f |] eqn:Hf.
    + rewrite (tracer_run_load g f Ht Hf) in Hrun.
      destruct (_load_impl f) as [t | e]; [| discriminate].
      injection Hrun as <- <-. exists t. auto.
    + unfold tracer, bind, get, read_TRACER_FACTORY in Hrun.
      rewrite Ht, Hf in Hrun. discriminate.
Qed.

(** C7: [set_preferred_tracer_implementation] tests the truth value of
    the cached tracer, where [tracer()] tests whether one is cached.
    After [tracer()] has returned, it raises [RuntimeError] and leaves
    both globals as they were when the cached tracer is true; when the
    class of the cached tracer makes it false, it returns, stores the
    factory, and the next [tracer()] still returns the cached tracer.
    While no tracer is cached (as right after import) it returns and
    stores the factory, which the first [tracer()] then hands to the
    loader. *)
Theorem set_preferred_after_load_tests_truthiness (g : globals T F)
    (factory : F) :
  (forall (r : option T) (g' : globals T F),
     tracer T F _load_impl g = (Return r, g') ->
     exists t,
       r = Some t
       /\ _TRACER g' = Some t
       /\ set_preferred_tracer_implementation T F tracer_bool factory g'
          = if tracer_bool t
            then (Raise (RuntimeError "Tracer already loaded."), g')
            else (Return tt, mk_globals (Some t) (Bound (Some factory))))
  /\ (forall t : T,
        _TRACER g = Some t -> tracer_bool t = true ->
        set_preferred_tracer_implementation T F tracer_bool factory g
        = (Raise (RuntimeError "Tracer already loaded."), g))
  /\ (forall t : T,
        _TRACER g = Some t -> tracer_bool t = false ->
        set_preferred_tracer_implementation T F tracer_bool factory g
        = (Return tt, mk_globals (Some t) (Bound (Some factory)))
        /\ tracer T F _load_impl (mk_globals (Some t) (Bound (Some factory)))
           = (Return (Some t), mk_globals (Some t) (Bound (Some factory))))
  /\ (_TRACER g = None ->
      set_preferred_tracer_implementation T F tracer_bool factory g
      = (Return tt, mk_globals None (Bound (Some factory))))
  /\ set_preferred_tracer_implementation T F tracer_bool factory initial_globals
     = (Return tt, mk_globals None (Bound (Some factory)))
  /\ tracer T F _load_impl (mk_globals None (Bound (Some factory)))
     = match _load_impl (Some factory) with
       | Return t => (Return (Some t), mk_globals (Some t) Unbound)
       | Raise e => (Raise e, mk_globals None (Bound (Some factory)))
       end.
Proof.
  assert (forall (g0 : globals T F) (t : T),
             _TRACER g0 = Some t ->
             set_preferred_tracer_implementation T F tracer_bool factory g0
             = if tracer_bool t
               then (Raise (RuntimeError "Tracer already loaded."), g0)
               else (Return tt, mk_globals (Some t) (Bound (Some factory))))
    as Hcached.
  { intros g0 t Ht.
    unfold set_preferred_tracer_implementation, bind, get, raise, put.
    rewrite Ht. simpl. destruct (tracer_bool t); reflexivity. }
  split; [| split; [| split; [| split; [| split]]]].
  - intros r g' Hrun.
    destruct (tracer_caches g g' r Hrun) as (t & -> & Ht).
    exists t. split; [reflexivity |]. split; [exact Ht |].
    exact (Hcached g' t Ht).
  - intros t Ht Htrue. rewrite (Hcached g t Ht), Htrue. reflexivity.
  - intros t Ht Hfalse. rewrite (Hcached g t Ht), Hfalse.
    split; [reflexivity |].
    apply tracer_run_cached. reflexivity.
  - intros Ht.
    unfold set_preferred_tracer_implementation, bind, get, put.
    rewrite Ht. reflexivity.
  - reflexivity.
  - apply tracer_run_load; reflexivity.
Qed.
End GlobalTracerProperties.

(** A tracer whose class defines [__len__], identified here by its
    length: the one of length [0] is false. Once it is loaded, a new
    factory is accepted without an error. *)
Lemma set_preferred_after_load_tests_truthiness_witness :
  tracer nat nat (fun _ => Return 0%nat) initial_globals
  = (Return (Some 0%nat), mk_globals (Some 0%nat) Unbound)
  /\ set_preferred_tracer_implementation nat nat
       (fun t => negb (Nat.eqb t 0)) 3%nat (mk_globals (Some 0%nat) Unbound)
     = (Return tt, mk_globals (Some 0%nat) (Bound (Some 3%nat)))
  /\ tracer nat nat (fun _ => Return 0%nat)
       (mk_globals (Some 0%nat) (Bound (Some 3%nat)))
     = (Return (Some 0%nat), mk_globals (Some 0%nat) (Bound (Some 3%nat))).
Proof.
  split; [reflexivity |].
  destruct (set_preferred_after_load_tests_truthiness nat nat
              (fun _ => Return 0%nat) (fun t => negb (Nat.eqb t 0))
              (mk_globals (Some 0%nat) Unbound) 3%nat)
    as (_ & _ & Hfalse & _).
  exact (Hfalse 0%nat eq_refl eq_refl).
Defined.

(** ** The placeholder span *)

(** C8: [get_current_span] of the API's tracer is total: it returns the
    placeholder [INVALID_SPAN], a span (not [None]) whose context exists
    and is invalid, and whose [is_recording_events()] is false. *)
Theorem get_current_span_returns_invalid_placeholder (T : Type) (self : T) :
  Tracer.get_current_span self = INVALID_SPAN
  /\ exists ctx,
       get_context (Tracer.get_current_span self) = Some ctx
       /\ ctx = INVALID_SPAN_CONTEXT
       /\ SpanContext.trace_id ctx = 0
       /\ SpanContext.span_id ctx = 0
       /\ SpanContext.is_valid ctx = false
       /\ is_recording_events (Tracer.get_current_span self) = Some false.
Proof.
  split; [reflexivity |].
  exists INVALID_SPAN_CONTEXT. repeat split; reflexivity.
Qed.

(** ** Hexadecimal rendering *)

Lemma hex_digits_length (k : nat) (n : Z) : length (hex_digits k n) = k.
Proof.
  revert n. induction k as [| k IH]; intros n; simpl.
  - reflexivity.
  - rewrite length_app, IH. simpl. lia.
Qed.

Lemma hex_digits_zero (k : nat) : hex_digits k 0 = repeat "0"%char k.
Proof.
  induction k as [| k IH]; simpl.
  - reflexivity.
  - change (0 / 16) with 0. rewrite IH.
    change (hex_digit (0 mod 16)) with "0"%char.
    symmetry. apply repeat_cons.
Qed.

Lemma hex_digits_pad (j k : nat) (n : Z) :
  0 <= n < 16 ^ Z.of_nat k ->
  hex_digits (j + k) n = repeat "0"%char j ++ hex_digits k n.
Proof.
  revert n. induction k as [| k IH]; intros n Hn.
  - assert (n = 0) as -> by (change (16 ^ Z.of_nat 0) with 1 in Hn; lia).
    rewrite Nat.add_0_r, app_nil_r. apply hex_digits_zero.
  - replace (j + S k)%nat with (S (j + k)) by lia. simpl.
    rewrite IH, app_assoc; [reflexivity |].
    rewrite Nat2Z.inj_succ, Z.pow_succ_r in Hn by lia.
    split; [apply Z.div_pos; lia |].
    apply Z.div_lt_upper_bound; lia.
Qed.

Lemma hex_width_covers (n : Z) :
  0 <= n -> n < 16 ^ Z.of_nat (hex_width n).
Proof.
  intros Hn. unfold hex_width.
  destruct (Z.eqb_spec n 0) as [-> | Hne]; [reflexivity |].
  assert (0 < n) as Hpos by lia.
  pose proof (Z.log2_nonneg n) as HL.
  destruct (Z.log2_spec n Hpos) as [_ Hup].
  set (L := Z.log2 n) in *.
  assert (L + 1 <= 4 * ((L + 1 + 3) / 4)) as Hq.
  { pose proof (Z.div_mod (L + 1 + 3) 4 ltac:(lia)).
    pose proof (Z.mod_pos_bound (L + 1 + 3) 4 ltac:(lia)). lia. }
  rewrite Z2Nat.id by (apply Z.div_pos; lia).
  change 16 with (2 ^ 4). rewrite <- Z.pow_mul_r by (try apply Z.div_pos; lia).
  eapply Z.lt_le_trans; [exact Hup |].
  replace (Z.succ L) with (L + 1) by lia.
  apply Z.pow_le_mono_r; lia.
Qed.

Lemma hex_width_le (k : nat) (n : Z) :
  (1 <= k)%nat -> 0 <= n < 16 ^ Z.of_nat k -> (hex_width n <= k)%nat.
Proof.
  intros Hk [Hn Hlt]. unfold hex_width.
  destruct (Z.eqb_spec n 0) as [-> | Hne]; [exact Hk |].
  assert (0 < n) as Hpos by lia.
  change 16 with (2 ^ 4) in Hlt. rewrite <- Z.pow_mul_r in Hlt by lia.
  apply Z.log2_lt_pow2 in Hlt; [| exact Hpos].
  assert ((Z.log2 n + 1 + 3) / 4 < Z.of_nat k + 1) as Hq
    by (apply Z.div_lt_upper_bound; lia).
  lia.
Qed.

Lemma format_0x_fixed_width (w : nat) (n : Z) :
  (1 <= w)%nat -> 0 <= n < 16 ^ Z.of_nat w ->
  format_0x w n = hex_digits w n.
Proof.
  intros Hw Hn. unfold format_0x, hex.
  destruct (Z.ltb_spec n 0) as [Hneg | _]; [lia |].
  rewrite Z.abs_eq by lia. simpl.
  rewrite hex_digits_length, Nat.sub_0_r.
  pose proof (hex_width_le w n Hw Hn) as Hle.
  rewrite <- hex_digits_pad by (split; [lia | apply hex_width_covers; lia]).
  f_equal. lia.
Qed.

Lemma hex_digit_is_hex (d : Z) :
  0 <= d < 16 ->
  is_hex_digit (hex_digit d) = true /\ hex_digit_value (hex_digit d) = d.
Proof.
  intros Hd.
  assert (d = 0 \/ d = 1 \/ d = 2 \/ d = 3 \/ d = 4 \/ d = 5 \/ d = 6
          \/ d = 7 \/ d = 8 \/ d = 9 \/ d = 10 \/ d = 11 \/ d = 12
          \/ d = 13 \/ d = 14 \/ d = 15) as Hcases by lia.
  repeat (destruct Hcases as [-> | Hcases]; [split; reflexivity |]).
  subst d. split; reflexivity.
Qed.

Lemma hex_digits_are_hex (k : nat) (n : Z) :
  Forall (fun c => is_hex_digit c = true) (hex_digits k n).
Proof.
  revert n. induction k as [| k IH]; intros n; simpl.
  - constructor.
  - apply Forall_app. split; [apply IH |].
    constructor; [| constructor].
    apply hex_digit_is_hex. apply Z.mod_pos_bound. lia.
Qed.

Lemma hex_value_snoc (l : list ascii) (c : ascii) :
  hex_value (l ++ [c]) = 16 * hex_value l + hex_digit_value c.
Proof. unfold hex_value. rewrite fold_left_app. reflexivity. Qed.

Lemma hex_value_digits (k : nat) (n : Z) :
  hex_value (hex_digits k n) = n mod 16 ^ Z.of_nat k.
Proof.
  revert n. induction k as [| k IH]; intros n.
  - simpl. rewrite Z.mod_1_r. reflexivity.
  - simpl hex_digits. rewrite hex_value_snoc, IH.
    destruct (hex_digit_is_hex (n mod 16)) as [_ ->];
      [apply Z.mod_pos_bound; lia |].
    rewrite Nat2Z.inj_succ, Z.pow_succ_r by lia.
    rewrite Z.rem_mul_r by lia. lia.
Qed.

Lemma string_of_list_ascii_length (l : list ascii) :
  String.length (string_of_list_ascii l) = length l.
Proof.
  induction l as [| c l IH]; simpl; [reflexivity | rewrite IH; reflexivity].
Qed.

(** C9: for a trace id in [[0, 2^128)] and a span id in [[0, 2^64)],
    [format_trace_id] and [format_span_id] give ["0x"] followed by
    exactly 32, respectively 16, hexadecimal digits, padded with zeros on
    the left, whose value is the id; [SpanContext.__repr__] shows the two
    ids in that form. *)
Theorem ids_render_in_fixed_width_hex (t s : Z)
    (Ht : 0 <= t < 2 ^ 128) (Hs : 0 <= s < 2 ^ 64) :
  format_trace_id t = string_of_list_ascii (["0"; "x"]%char ++ hex_digits 32 t)
  /\ format_span_id s
     = string_of_list_ascii (["0"; "x"]%char ++ hex_digits 16 s)
  /\ length (hex_digits 32 t) = 32%nat
  /\ length (hex_digits 16 s) = 16%nat
  /\ Forall (fun c => is_hex_digit c = true) (hex_digits 32 t)
  /\ Forall (fun c => is_hex_digit c = true) (hex_digits 16 s)
  /\ hex_value (hex_digits 32 t) = t
  /\ hex_value (hex_digits 16 s) = s
  /\ String.length (format_trace_id t) = 34%nat
  /\ String.length (format_span_id s) = 18%nat
  /\ forall (repr_dict : TraceState.t -> string)
            (o : option TraceOptions.t) (st : option TraceState.t),
       SpanContext.__repr__ repr_dict (SpanContext.__init__ t s o st)
       = "SpanContext(trace_id="
         +:+ string_of_list_ascii (["0"; "x"]%char ++ hex_digits 32 t)
         +:+ ", span_id="
         +:+ string_of_list_ascii (["0"; "x"]%char ++ hex_digits 16 s)
         +:+ ", trace_state="
         +:+ repr_dict (SpanContext.trace_state (SpanContext.__init__ t s o st))
         +:+ ")".
Proof.
  assert (format_0x 32 t = hex_digits 32 t) as Et
    by (apply format_0x_fixed_width; [lia | exact Ht]).
  assert (format_0x 16 s = hex_digits 16 s) as Es
    by (apply format_0x_fixed_width; [lia | exact Hs]).
  assert (format_trace_id t
          = string_of_list_ascii (["0"; "x"]%char ++ hex_digits 32 t)) as Ft
    by (unfold format_trace_id; rewrite Et; reflexivity).
  assert (format_span_id s
          = string_of_list_ascii (["0"; "x"]%char ++ hex_digits 16 s)) as Fs
    by (unfold format_span_id; rewrite Es; reflexivity).
  split; [exact Ft |]. split; [exact Fs |].
  split; [apply hex_digits_length |]. split; [apply hex_digits_length |].
  split; [apply hex_digits_are_hex |]. split; [apply hex_digits_are_hex |].
  split; [rewrite hex_value_digits; apply Z.mod_small; exact Ht |].
  split; [rewrite hex_value_digits; apply Z.mod_small; exact Hs |].
  split; [rewrite Ft, string_of_list_ascii_length, length_app,
            hex_digits_length; reflexivity |].
  split; [rewrite Fs, string_of_list_ascii_length, length_app,
            hex_digits_length; reflexivity |].
  intros repr_dict o st. unfold SpanContext.__repr__.
  change (SpanContext.trace_id (SpanContext.__init__ t s o st)) with t.
  change (SpanContext.span_id (SpanContext.__init__ t s o st)) with s.
  rewrite Ft, Fs. reflexivity.
Qed.

(** Outside these ranges the rendering is not of fixed width: a wider
    id is not truncated, and a negative one carries its sign. *)
Lemma format_span_id_outside_range :
  format_span_id (2 ^ 64) = "0x10000000000000000"
  /\ format_span_id (-255) = "0x-0000000000000ff".
Proof. split; reflexivity. Qed.

Lemma ids_render_in_fixed_width_hex_witness :
  format_trace_id 0xdeadbeef = "0x000000000000000000000000deadbeef"
  /\ format_span_id 0xff = "0x00000000000000ff".
Proof.
  destruct (ids_render_in_fixed_width_hex 0xdeadbeef 0xff
              ltac:(lia) ltac:(lia)) as (Ft & Fs & _).
  split; [exact Ft | exact Fs].
Defined.

(** ** Who holds a decision *)

Lemma static_should_sample_run (h : list object) (self d0 : loc)
    (pc : option SpanContext.t) (t s : Z) (name : string)
    (links : list Link.t) :
  h !! self = Some (OStaticSampler d0) ->
  Sampler.should_sample self pc t s name links h = (Return d0, h).
Proof.
  intros Hs.
  unfold Sampler.should_sample, StaticSampler.should_sample, bind, load.
  rewrite Hs. simpl. rewrite Hs. reflexivity.
Qed.

(** C10, as the code has it: a probability sampler answers every call
    with a new decision carrying a new, empty attribute dict; neither
    existed before the call, no object that existed is changed, and no
    mutation of the decision changes what later calls answer. A static
    sampler answers every call with the one decision it holds, and
    allocates nothing. *)
Theorem probability_sampler_decisions_are_fresh (h : list object)
    (self : loc) (r : float) (b : Z) (pc : option SpanContext.t) (t s : Z)
    (name : string) (links : list Link.t)
    (Hself : h !! self = Some (OProbabilitySampler r b)) :
  (exists d a h1,
     Sampler.should_sample self pc t s name links h = (Return d, h1)
     /\ h !! d = None
     /\ h !! a = None
     /\ h1 !! d = Some (ODecision (sampled_for b pc t) a)
     /\ h1 !! a = Some (ODict ∅)
     /\ (forall l o, h !! l = Some o -> h1 !! l = Some o)
     /\ later_calls_unaffected h1 self d)
  /\ (forall (g : list object) (static d0 : loc)
             (pc' : option SpanContext.t) (t' s' : Z) (name' : string)
             (links' : list Link.t),
        g !! static = Some (OStaticSampler d0) ->
        Sampler.should_sample static pc' t' s' name' links' g
        = (Return d0, g)).
Proof.
  split.
  - pose proof (should_sample_run h self r b pc t s name links Hself) as R.
    exists (S (length h)), (length h),
      (h ++ [ODict ∅; ODecision (sampled_for b pc t) (length h)]).
    assert ((h ++ [ODict ∅; ODecision (sampled_for b pc t) (length h)])
              !! self = Some (OProbabilitySampler r b)) as Hself1.
    { rewrite lookup_app_l; [exact Hself |].
      eapply lookup_lt_Some; exact Hself. }
    split; [exact R |].
    split; [apply lookup_ge_None; lia |].
    split; [apply lookup_fresh |].
    split; [rewrite lookup_app_r by lia;
            replace (S (length h) - length h)%nat with 1%nat by lia;
            reflexivity |].
    split; [rewrite lookup_app_r by lia; rewrite Nat.sub_diag;
            reflexivity |].
    split; [exact (should_sample_keeps_store _ _ _ _ _ _ _ _ _ _ _ Hself R) |].
    intros ms hm pc' t' s' name' links' d1 d2 h1 h2 Hm R1 R2.
    pose proof (mutate_all_keeps_sampler _ _ _ _ _ _ _ _ Hm Hself1) as Hselfm.
    rewrite (should_sample_run _ self r b pc' t' s' name' links' Hself1) in R1.
    rewrite (should_sample_run _ self r b pc' t' s' name' links' Hselfm) in R2.
    injection R1 as <- <-. injection R2 as <- <-.
    rewrite !decision_view_new. reflexivity.
  - intros g static d0 pc' t' s' name' links' Hs.
    exact (static_should_sample_run g static d0 pc' t' s' name' links' Hs).
Qed.

Lemma probability_sampler_decisions_are_fresh_witness :
  exists d a h1,
    Sampler.should_sample 0%nat None 5 7 "root" []
      [OProbabilitySampler 0.5 (2 ^ 63)] = (Return d, h1)
    /\ [OProbabilitySampler 0.5 (2 ^ 63)] !! d = None
    /\ h1 !! d = Some (ODecision true a)
    /\ later_calls_unaffected h1 0%nat d.
Proof.
  destruct (probability_sampler_decisions_are_fresh
              [OProbabilitySampler 0.5 (2 ^ 63)] 0%nat 0.5%float (2 ^ 63)
              None 5 7 "root" [] eq_refl)
    as [(d & a & h1 & H1 & H2 & _ & H4 & _ & _ & H7) _].
  exists d, a, h1. auto.
Defined.

(** C10 as stated fails for a static sampler: the decision that
    [ALWAYS_ON] returns is the one it holds since import, and clearing
    its [sampled] field makes the next call answer "not sampled". *)
Lemma static_sampler_returns_its_own_decision :
  let h0 := [ODict ∅; ODecision false 0%nat; OStaticSampler 1%nat;
             ODict ∅; ODecision true 3%nat; OStaticSampler 4%nat;
             OProbabilitySampler 0 0; OProbabilitySampler 1 (2 ^ 64)] in
  let hm := [ODict ∅; ODecision false 0%nat; OStaticSampler 1%nat;
             ODict ∅; ODecision false 3%nat; OStaticSampler 4%nat;
             OProbabilitySampler 0 0; OProbabilitySampler 1 (2 ^ 64)] in
  let m := mk_samplers 2%nat 5%nat 6%nat 7%nat in
  module_init [] = (Return m, h0)
  /\ Sampler.should_sample (ALWAYS_ON m) None 1 2 "span" [] h0
     = (Return 4%nat, h0)
  /\ Decision.get_sampled 4%nat h0 = (Return true, h0)
  /\ Decision.set_sampled 4%nat false h0 = (Return tt, hm)
  /\ Sampler.should_sample (ALWAYS_ON m) None 1 2 "span" [] hm
     = (Return 4%nat, hm)
  /\ Decision.get_sampled 4%nat hm = (Return false, hm)
  /\ ~ later_calls_unaffected h0 (ALWAYS_ON m) 4%nat.
Proof.
  intros h0 hm m.
  split; [exact (module_init_run []) |].
  repeat (split; [reflexivity |]).
  intros Hfresh.
  specialize (Hfresh [SetSampled false] hm None 1 2 "span" [] 4%nat 4%nat
                h0 hm eq_refl eq_refl eq_refl).
  unfold decision_view in Hfresh. simpl in Hfresh. discriminate Hfresh.
Qed.


(** * Further properties of the modelled code *)

(** ** The global tracer across calls *)

Section GlobalTracerAcrossCalls.
Variables T F : Type.
Variable _load_impl : option F -> outcome T.
Variable tracer_bool : T -> bool.

Lemma tracer_raise_inv (g g' : globals T F) (e : exn) :
  tracer T F _load_impl g = (Raise e, g') -> g' = g /\ _TRACER g = None.
Proof.
  intros Hraise. destruct (_TRACER g) as [t |] eqn:Ht.
  - rewrite (tracer_run_cached T F _load_impl g t Ht) in Hraise.
    discriminate.
  - destruct (_TRACER_FACTORY g) as [f |] eqn:Hf.
    + rewrite (tracer_run_load T F _load_impl g f Ht Hf) in Hraise.
      destruct (_load_impl f); [discriminate |].
      injection Hraise as _ <-. auto.
    + unfold tracer, bind, get, read_TRACER_FACTORY in Hraise.
      rewrite Ht, Hf in Hraise. injection Hraise as _ <-. auto.
Qed.

(** X1: when [tracer()] raises, nothing was cached and the globals are
    as before the call, so the load can be retried and a factory can
    still be selected. *)
Theorem tracer_failure_changes_nothing (g g' : globals T F) (e : exn)
    (Hraise : tracer T F _load_impl g = (Raise e, g')) :
  g' = g
  /\ _TRACER g = None
  /\ tracer T F _load_impl g' = (Raise e, g')
  /\ forall factory : F,
       set_preferred_tracer_implementation T F tracer_bool factory g'
       = (Return tt, mk_globals None (Bound (Some factory))).
Proof.
  destruct (tracer_raise_inv g g' e Hraise) as [-> Hnone].
  split; [reflexivity |]. split; [exact Hnone |].
  split; [exact Hraise |].
  intros factory.
  unfold set_preferred_tracer_implementation, bind, get, put.
  rewrite Hnone. reflexivity.
Qed.

Lemma run_calls_snoc (cs : list (call F)) (c : call F) (g : globals T F) :
  run_calls T F _load_impl tracer_bool (cs ++ [c]) g
  = run_call T F _load_impl tracer_bool
      (run_calls T F _load_impl tracer_bool cs g) c.
Proof. unfold run_calls. rewrite fold_left_app. reflexivity. Qed.

Lemma run_call_keeps_factory_bound (g : globals T F) (c : call F) :
  (_TRACER g = None -> exists f, _TRACER_FACTORY g = Bound f) ->
  _TRACER (run_call T F _load_impl tracer_bool g c) = None ->
  exists f, _TRACER_FACTORY (run_call T F _load_impl tracer_bool g c) = Bound f.
Proof.
  intros Hinv. destruct c as [| factory]; simpl.
  - destruct (_TRACER g) as [t |] eqn:Ht.
    + rewrite (tracer_run_cached T F _load_impl g t Ht). simpl.
      rewrite Ht. discriminate.
    + destruct (Hinv eq_refl) as [f Hf].
      rewrite (tracer_run_load T F _load_impl g f Ht Hf).
      destruct (_load_impl f); simpl; [discriminate |].
      intros _. exists f. exact Hf.
  - unfold set_preferred_tracer_implementation, bind, get, put, raise.
    destruct (_TRACER g) as [t |] eqn:Ht; simpl.
    + destruct (tracer_bool t); simpl; [rewrite Ht |]; discriminate.
    + intros _. eexists. reflexivity.
Qed.

(** X2: after any sequence of [tracer()] and
    [set_preferred_tracer_implementation] calls since import, a tracer is
    cached or [_TRACER_FACTORY] is still bound: [tracer()] never reads
    the deleted name, and the only exceptions it raises are the
    loader's. *)
Theorem tracer_raises_only_what_the_loader_raises (cs : list (call F)) :
  (_TRACER (run_calls T F _load_impl tracer_bool cs initial_globals) = None ->
   exists f,
     _TRACER_FACTORY (run_calls T F _load_impl tracer_bool cs initial_globals) = Bound f)
  /\ forall (e : exn) (g' : globals T F),
       tracer T F _load_impl (run_calls T F _load_impl tracer_bool cs initial_globals)
       = (Raise e, g') ->
       exists f,
         _TRACER_FACTORY (run_calls T F _load_impl tracer_bool cs initial_globals)
         = Bound f
         /\ _load_impl f = Raise e.
Proof.
  set (g := run_calls T F _load_impl tracer_bool cs initial_globals).
  assert (_TRACER g = None -> exists f, _TRACER_FACTORY g = Bound f) as Hinv.
  { subst g. induction cs as [| c cs IH] using rev_ind.
    - intros _. exists None. reflexivity.
    - rewrite run_calls_snoc.
      apply run_call_keeps_factory_bound. exact IH. }
  split; [exact Hinv |].
  intros e g' Hraise.
  destruct (tracer_raise_inv g g' e Hraise) as [_ Hnone].
  destruct (Hinv Hnone) as [f Hf].
  rewrite (tracer_run_load T F _load_impl g f Hnone Hf) in Hraise.
  destruct (_load_impl f) as [t | e0] eqn:Hload; [discriminate |].
  injection Hraise as -> _.
  exists f. split; [exact Hf | exact Hload].
Qed.

Lemma run_call_keeps_tracer (g : globals T F) (t : T) (c : call F) :
  _TRACER g = Some t ->
  _TRACER (run_call T F _load_impl tracer_bool g c) = Some t.
Proof.
  intros Ht. destruct c as [| factory]; simpl.
  - rewrite (tracer_run_cached T F _load_impl g t Ht). exact Ht.
  - unfold set_preferred_tracer_implementation, bind, get, raise, put.
    rewrite Ht. simpl. destruct (tracer_bool t); [exact Ht | reflexivity].
Qed.

Lemma run_calls_keep_tracer (g : globals T F) (t : T) (cs : list (call F)) :
  _TRACER g = Some t ->
  _TRACER (run_calls T F _load_impl tracer_bool cs g) = Some t.
Proof.
  intros Ht. induction cs as [| c cs IH] using rev_ind; [exact Ht |].
  rewrite run_calls_snoc. apply run_call_keeps_tracer. exact IH.
Qed.

Lemma run_call_true_tracer (g : globals T F) (t : T) (c : call F) :
  _TRACER g = Some t -> tracer_bool t = true ->
  run_call T F _load_impl tracer_bool g c = g.
Proof.
  intros Ht Htrue. destruct c as [| factory]; simpl.
  - rewrite (tracer_run_cached T F _load_impl g t Ht). reflexivity.
  - unfold set_preferred_tracer_implementation, bind, get, raise.
    rewrite Ht. simpl. rewrite Htrue. reflexivity.
Qed.

Lemma run_calls_true_tracer (g : globals T F) (t : T) (cs : list (call F)) :
  _TRACER g = Some t -> tracer_bool t = true ->
  run_calls T F _load_impl tracer_bool cs g = g.
Proof.
  intros Ht Htrue.
  induction cs as [| c cs IH] using rev_ind; [reflexivity |].
  rewrite run_calls_snoc, IH. exact (run_call_true_tracer g t c Ht Htrue).
Qed.

(** X3: once a tracer is cached, no sequence of later calls replaces it:
    every later [tracer()] returns that same tracer without consulting
    the loader, whatever the loader would now answer, and without
    changing the globals. When the cached tracer is true, the calls of
    [set_preferred_tracer_implementation] change nothing either, and the
    globals stay exactly as they were. *)
Theorem cached_tracer_is_permanent (g : globals T F) (t : T)
    (cs : list (call F)) (Hcached : _TRACER g = Some t) :
  _TRACER (run_calls T F _load_impl tracer_bool cs g) = Some t
  /\ (forall load' : option F -> outcome T,
        tracer T F load' (run_calls T F _load_impl tracer_bool cs g)
        = (Return (Some t), run_calls T F _load_impl tracer_bool cs g))
  /\ (tracer_bool t = true ->
      run_calls T F _load_impl tracer_bool cs g = g).
Proof.
  pose proof (run_calls_keep_tracer g t cs Hcached) as Hkept.
  split; [exact Hkept |].
  split; [| exact (run_calls_true_tracer g t cs Hcached)].
  intros load'. unfold tracer, bind, get, ret. rewrite Hkept. simpl.
  rewrite Hkept. reflexivity.
Qed.

Lemma run_set_preferred_calls (fs : list F) :
  run_calls T F _load_impl tracer_bool (map CallSetPreferred fs) initial_globals
  = mk_globals None (Bound (last fs)).
Proof.
  induction fs as [| f fs IH] using rev_ind; [reflexivity |].
  rewrite map_app. cbn [map].
  rewrite run_calls_snoc, IH, last_snoc. reflexivity.
Qed.

(** X4: factories selected before the first [tracer()] replace one
    another: the loader is handed the one selected last, or [None] when
    none was selected, and what it returns is cached. *)
Theorem last_selected_factory_is_loaded (fs : list F) :
  tracer T F _load_impl
    (run_calls T F _load_impl tracer_bool (map CallSetPreferred fs) initial_globals)
  = match _load_impl (last fs) with
    | Return t => (Return (Some t), mk_globals (Some t) Unbound)
    | Raise e => (Raise e, mk_globals None (Bound (last fs)))
    end.
Proof.
  rewrite run_set_preferred_calls.
  apply tracer_run_load; reflexivity.
Qed.
End GlobalTracerAcrossCalls.

Lemma tracer_failure_changes_nothing_witness :
  tracer nat nat (fun _ => Raise (RuntimeError "no implementation"))
    initial_globals
  = (Raise (RuntimeError "no implementation"), initial_globals)
  /\ set_preferred_tracer_implementation nat nat (fun _ => true) 3%nat
       initial_globals
     = (Return tt, mk_globals None (Bound (Some 3%nat))).
Proof.
  split; [reflexivity |].
  destruct (tracer_failure_changes_nothing nat nat
              (fun _ => Raise (RuntimeError "no implementation"))
              (fun _ => true) initial_globals initial_globals
              (RuntimeError "no implementation") eq_refl)
    as (_ & _ & _ & Hset).
  exact (Hset 3%nat).
Defined.

Lemma cached_tracer_is_permanent_witness :
  _TRACER
    (run_calls nat nat (fun _ => Return 9%nat) (fun t => negb (Nat.eqb t 0))
       [CallSetPreferred 3%nat; CallTracer; CallSetPreferred 4%nat]
       (mk_globals (Some 0%nat) Unbound))
  = Some 0%nat
  /\ run_calls nat nat (fun _ => Return 9%nat) (fun t => negb (Nat.eqb t 0))
       [CallSetPreferred 3%nat; CallTracer; CallSetPreferred 4%nat]
       (mk_globals (Some 7%nat) Unbound)
     = mk_globals (Some 7%nat) Unbound.
Proof.
  split.
  - destruct (cached_tracer_is_permanent nat nat (fun _ => Return 9%nat)
                (fun t => negb (Nat.eqb t 0))
                (mk_globals (Some 0%nat) Unbound) 0%nat
                [CallSetPreferred 3%nat; CallTracer; CallSetPreferred 4%nat]
                eq_refl)
      as [Hkept _].
    exact Hkept.
  - destruct (cached_tracer_is_permanent nat nat (fun _ => Return 9%nat)
                (fun t => negb (Nat.eqb t 0))
                (mk_globals (Some 7%nat) Unbound) 7%nat
                [CallSetPreferred 3%nat; CallTracer; CallSetPreferred 4%nat]
                eq_refl)
      as (_ & _ & Hsame).
    exact (Hsame eq_refl).
Defined.

Lemma tracer_raises_only_what_the_loader_raises_witness :
  tracer nat nat (fun _ => Raise (RuntimeError "no implementation"))
    (run_calls nat nat (fun _ => Raise (RuntimeError "no implementation"))
       (fun _ => true)
       [CallTracer; CallSetPreferred 3%nat; CallTracer] initial_globals)
  = (Raise (RuntimeError "no implementation"),
     mk_globals None (Bound (Some 3%nat)))
  /\ exists f : option nat,
       (fun _ : option nat => @Raise nat (RuntimeError "no implementation")) f
       = Raise (RuntimeError "no implementation").
Proof.
  split; [reflexivity |].
  destruct (tracer_raises_only_what_the_loader_raises nat nat
              (fun _ => Raise (RuntimeError "no implementation"))
              (fun _ => true)
              [CallTracer; CallSetPreferred 3%nat; CallTracer])
    as [_ Hraise].
  destruct (Hraise (RuntimeError "no implementation")
              (mk_globals None (Bound (Some 3%nat))) eq_refl)
    as (f & _ & Hf).
  exists f. exact Hf.
Defined.

(** ** Decisions and their attribute dicts *)

Lemma Decision_init_copy_run (v : bool) (m : loc)
    (items : gmap string AttributeValue) (h : list object) :
  h !! m = Some (ODict items) ->
  Decision.__init__ v (Some m) h
  = (Return (S (length h)), h ++ [ODict items; ODecision v (length h)]).
Proof.
  intros Hm. unfold Decision.__init__, bind, load, alloc.
  rewrite Hm. simpl. rewrite length_app, <- app_assoc. simpl.
  replace (length h + 1)%nat with (S (length h)) by lia.
  reflexivity.
Qed.

Lemma decision_view_appended (v : bool)
    (items : gmap string AttributeValue) (h : list object) :
  decision_view (h ++ [ODict items; ODecision v (length h)]) (S (length h))
  = Some (v, items).
Proof.
  unfold decision_view.
  rewrite (lookup_app_r h _ (S (length h))) by lia.
  replace (S (length h) - length h)%nat with 1%nat by lia. simpl.
  rewrite (lookup_app_r h _ (length h)) by lia.
  rewrite Nat.sub_diag. reflexivity.
Qed.

Lemma decision_view_from (h : list object) (d a : loc) (v : bool)
    (items : gmap string AttributeValue) :
  h !! d = Some (ODecision v a) ->
  h !! a = Some (ODict items) ->
  decision_view h d = Some (v, items).
Proof.
  intros Hd Ha. unfold decision_view. rewrite Hd, Ha. reflexivity.
Qed.

(** X5: [Decision(sampled, attributes)] copies the mapping it is given:
    the decision's attribute dict is a new object with the same items,
    so a later change of the caller's mapping does not show in the
    decision, and a change of the decision's dict does not show in the
    caller's mapping. *)
Theorem decision_copies_its_attributes (h : list object) (m : loc)
    (items : gmap string AttributeValue) (v : bool)
    (Hm : h !! m = Some (ODict items)) :
  exists d a h1,
    Decision.__init__ v (Some m) h = (Return d, h1)
    /\ h !! d = None
    /\ h !! a = None
    /\ a <> m
    /\ h1 !! d = Some (ODecision v a)
    /\ h1 !! m = Some (ODict items)
    /\ decision_view h1 d = Some (v, items)
    /\ (forall key value,
          exists h2,
            dict_setitem m key value h1 = (Return tt, h2)
            /\ h2 !! m = Some (ODict (<[key := value]> items))
            /\ decision_view h2 d = Some (v, items))
    /\ (forall key value,
          exists h2,
            dict_setitem a key value h1 = (Return tt, h2)
            /\ h2 !! m = Some (ODict items)
            /\ decision_view h2 d = Some (v, <[key := value]> items)).
Proof.
  pose proof (lookup_lt_Some _ _ _ Hm) as Hlt.
  set (h1 := h ++ [ODict items; ODecision v (length h)]).
  assert (h1 !! m = Some (ODict items)) as Hm1
    by (unfold h1; rewrite lookup_app_l by exact Hlt; exact Hm).
  assert (h1 !! (length h : loc) = Some (ODict items)) as Ha1
    by (unfold h1; rewrite lookup_app_r by lia; rewrite Nat.sub_diag;
        reflexivity).
  assert (h1 !! S (length h) = Some (ODecision v (length h))) as Hd1.
  { unfold h1. rewrite lookup_app_r by lia.
    replace (S (length h) - length h)%nat with 1%nat by lia. reflexivity. }
  assert (length h1 = S (S (length h))) as Hlen
    by (unfold h1; rewrite length_app; simpl; lia).
  exists (S (length h)), (length h), h1.
  split; [exact (Decision_init_copy_run v m items h Hm) |].
  split; [apply lookup_ge_None; lia |].
  split; [apply lookup_fresh |].
  split; [lia |].
  split; [exact Hd1 |].
  split; [exact Hm1 |].
  split; [apply decision_view_appended |].
  split.
  - intros key value.
    exists (<[m := ODict (<[key := value]> items)]> h1).
    split; [unfold dict_setitem, bind, load, store; rewrite Hm1;
            reflexivity |].
    split; [apply list_lookup_insert_eq; lia |].
    apply decision_view_from with (a := length h).
    + rewrite list_lookup_insert_ne by lia. exact Hd1.
    + rewrite list_lookup_insert_ne by lia. exact Ha1.
  - intros key value.
    exists (<[length h := ODict (<[key := value]> items)]> h1).
    split; [unfold dict_setitem, bind, load, store; rewrite Ha1;
            reflexivity |].
    split; [rewrite list_lookup_insert_ne by lia; exact Hm1 |].
    apply decision_view_from with (a := length h).
    + rewrite list_lookup_insert_ne by lia. exact Hd1.
    + apply list_lookup_insert_eq. lia.
Qed.

Lemma decision_copies_its_attributes_witness :
  exists d a h1,
    Decision.__init__ true (Some 0%nat) [ODict {["k" := AttrInt 1]}]
    = (Return d, h1)
    /\ a <> 0%nat
    /\ h1 !! d = Some (ODecision true a)
    /\ decision_view h1 d = Some (true, {["k" := AttrInt 1]}).
Proof.
  destruct (decision_copies_its_attributes
              [ODict {["k" := AttrInt 1]}] 0%nat {["k" := AttrInt 1]} true
              eq_refl)
    as (d & a & h1 & H1 & _ & _ & H4 & H5 & _ & H7 & _).
  exists d, a, h1. auto.
Defined.

(** ** Static samplers *)

(** X6: a static sampler built from [Decision(v)] answers [v] to every
    call, whatever the parent context, trace id, span id, name and
    links, and allocates nothing; in particular [ALWAYS_ON] samples the
    child of an unsampled parent and [ALWAYS_OFF] does not sample the
    child of a sampled one. *)
Theorem static_sampler_ignores_its_arguments (h : list object) (v : bool)
    (pc : option SpanContext.t) (t s : Z) (name : string)
    (links : list Link.t) :
  (exists d h1 self h2,
     Decision.__init__ v None h = (Return d, h1)
     /\ StaticSampler.__init__ d h1 = (Return self, h2)
     /\ Sampler.should_sample self pc t s name links h2 = (Return d, h2)
     /\ Decision.get_sampled d h2 = (Return v, h2))
  /\ (exists m h0 d_on d_off,
        module_init h = (Return m, h0)
        /\ Sampler.should_sample (ALWAYS_ON m) pc t s name links h0
           = (Return d_on, h0)
        /\ Decision.get_sampled d_on h0 = (Return true, h0)
        /\ Sampler.should_sample (ALWAYS_OFF m) pc t s name links h0
           = (Return d_off, h0)
        /\ Decision.get_sampled d_off h0 = (Return false, h0)
        /\ d_on <> d_off).
Proof.
  split.
  - exists (S (length h)), (h ++ [ODict ∅; ODecision v (length h)]),
      (S (S (length h))),
      ((h ++ [ODict ∅; ODecision v (length h)])
         ++ [OStaticSampler (S (length h))]).
    split; [apply Decision_init_run |].
    split; [unfold StaticSampler.__init__, alloc; rewrite length_app;
            simpl; repeat f_equal; lia |].
    split.
    + apply static_should_sample_run.
      rewrite lookup_app_r by (rewrite length_app; simpl; lia).
      rewrite length_app. simpl.
      replace (S (S (length h)) - (length h + 2))%nat with 0%nat by lia.
      reflexivity.
    + unfold Decision.get_sampled, bind, load.
      rewrite <- app_assoc.
      rewrite lookup_app_r by lia.
      replace (S (length h) - length h)%nat with 1%nat by lia.
      reflexivity.
  - eexists _, _, (4 + length h)%nat, (1 + length h)%nat.
    split; [apply module_init_run |].
    cbn [ALWAYS_ON ALWAYS_OFF].
    split; [apply static_should_sample_run; rewrite lookup_app_r by lia;
            replace (5 + length h - length h)%nat with 5%nat by lia;
            reflexivity |].
    split; [unfold Decision.get_sampled, bind, load;
            rewrite lookup_app_r by lia;
            replace (4 + length h - length h)%nat with 4%nat by lia;
            reflexivity |].
    split; [apply static_should_sample_run; rewrite lookup_app_r by lia;
            replace (2 + length h - length h)%nat with 2%nat by lia;
            reflexivity |].
    split; [unfold Decision.get_sampled, bind, load;
            rewrite lookup_app_r by lia;
            replace (1 + length h - length h)%nat with 1%nat by lia;
            reflexivity |].
    lia.
Qed.

(** ** Probability samplers *)

(** X7: a parent context built without trace options carries the
    default options, whose sampled flag is clear: no probability
    sampler, whatever its rate and bound, samples its children. The
    context of the placeholder span is such a parent. *)
Theorem child_of_default_parent_is_never_sampled (h : list object)
    (self : loc) (r : float) (b : Z) (trace_id span_id : Z)
    (state : option TraceState.t) (t s : Z) (name : string)
    (links : list Link.t)
    (Hself : h !! self = Some (OProbabilitySampler r b)) :
  (exists d h',
     Sampler.should_sample self
       (Some (SpanContext.__init__ trace_id span_id None state))
       t s name links h = (Return d, h')
     /\ Decision.get_sampled d h' = (Return false, h'))
  /\ (exists d h',
        Sampler.should_sample self (get_context INVALID_SPAN)
          t s name links h = (Return d, h')
        /\ Decision.get_sampled d h' = (Return false, h')).
Proof.
  split.
  - eexists _, _.
    split; [apply should_sample_run with (r := r); exact Hself |].
    apply get_sampled_new.
  - eexists _, _.
    split; [apply should_sample_run with (r := r); exact Hself |].
    apply get_sampled_new.
Qed.

Lemma child_of_default_parent_is_never_sampled_witness :
  exists d h',
    Sampler.should_sample 0%nat (Some (SpanContext.__init__ 11 12 None None))
      3 4 "child" [] [OProbabilitySampler 1 (2 ^ 64)] = (Return d, h')
    /\ Decision.get_sampled d h' = (Return false, h').
Proof.
  destruct (child_of_default_parent_is_never_sampled
              [OProbabilitySampler 1 (2 ^ 64)] 0%nat 1%float (2 ^ 64)
              11 12 None 3 4 "child" [] eq_refl)
    as [(d & h' & H1 & H2) _].
  exists d, h'. auto.
Defined.

(** X8: sampling is monotone in the bound: whatever a sampler with
    bound [b1] samples, a sampler with a bound [b2 >= b1] samples too,
    for the same parent context and trace id. *)
Theorem larger_bound_samples_more (h1 h2 : list object) (self1 self2 : loc)
    (r1 r2 : float) (b1 b2 : Z) (pc : option SpanContext.t) (t s : Z)
    (name : string) (links : list Link.t)
    (Hself1 : h1 !! self1 = Some (OProbabilitySampler r1 b1))
    (Hself2 : h2 !! self2 = Some (OProbabilitySampler r2 b2))
    (Hle : b1 <= b2) :
  exists d1 h1' v1 d2 h2' v2,
    Sampler.should_sample self1 pc t s name links h1 = (Return d1, h1')
    /\ Decision.get_sampled d1 h1' = (Return v1, h1')
    /\ Sampler.should_sample self2 pc t s name links h2 = (Return d2, h2')
    /\ Decision.get_sampled d2 h2' = (Return v2, h2')
    /\ (v1 = true -> v2 = true).
Proof.
  eexists _, _, (sampled_for b1 pc t), _, _, (sampled_for b2 pc t).
  split; [apply should_sample_run with (r := r1); exact Hself1 |].
  split; [apply get_sampled_new |].
  split; [apply should_sample_run with (r := r2); exact Hself2 |].
  split; [apply get_sampled_new |].
  destruct pc as [pc |]; simpl; [auto |].
  rewrite !Z.ltb_lt. lia.
Qed.

Lemma larger_bound_samples_more_witness :
  exists d1 h1' v1 d2 h2' v2,
    Sampler.should_sample 0%nat None 5 7 "root" []
      [OProbabilitySampler 0.25 (2 ^ 62)] = (Return d1, h1')
    /\ Decision.get_sampled d1 h1' = (Return v1, h1')
    /\ Sampler.should_sample 0%nat None 5 7 "root" []
         [OProbabilitySampler 0.5 (2 ^ 63)] = (Return d2, h2')
    /\ Decision.get_sampled d2 h2' = (Return v2, h2')
    /\ (v1 = true -> v2 = true).
Proof.
  apply (larger_bound_samples_more
           [OProbabilitySampler 0.25 (2 ^ 62)]
           [OProbabilitySampler 0.5 (2 ^ 63)] 0%nat 0%nat
           0.25%float 0.5%float (2 ^ 62) (2 ^ 63) None 5 7 "root" []
           eq_refl eq_refl).
  lia.
Defined.

(** X9: the bound saturates: a sampler whose bound is zero or negative
    samples no root span, and one whose bound is [2^64] or more samples
    every root span, whatever the trace id. *)
Theorem bound_outside_64_bits_saturates (h : list object) (self : loc)
    (r : float) (b : Z) (t s : Z) (name : string) (links : list Link.t)
    (Hself : h !! self = Some (OProbabilitySampler r b)) :
  exists d h' v,
    Sampler.should_sample self None t s name links h = (Return d, h')
    /\ Decision.get_sampled d h' = (Return v, h')
    /\ (b <= 0 -> v = false)
    /\ (2 ^ 64 <= b -> v = true).
Proof.
  pose proof (land_CHECK_BYTES_range t) as Hrange.
  eexists _, _, (sampled_for b None t).
  split; [apply should_sample_run with (r := r); exact Hself |].
  split; [apply get_sampled_new |].
  simpl. split; intros Hb; [apply Z.ltb_ge | apply Z.ltb_lt]; lia.
Qed.

Lemma bound_outside_64_bits_saturates_witness :
  exists d h',
    Sampler.should_sample 0%nat None 5 7 "root" []
      [OProbabilitySampler 2 (2 ^ 65)] = (Return d, h')
    /\ Decision.get_sampled d h' = (Return true, h').
Proof.
  destruct (bound_outside_64_bits_saturates
              [OProbabilitySampler 2 (2 ^ 65)] 0%nat 2%float (2 ^ 65)
              5 7 "root" [] eq_refl)
    as (d & h' & v & H1 & H2 & _ & H4).
  exists d, h'. split; [exact H1 |].
  rewrite (H4 ltac:(lia)) in H2. exact H2.
Defined.

(** X10: assigning the rate touches the sampler alone: whether the
    assignment returns or raises, the store keeps its size and every
    other object is as before. *)
Theorem set_rate_changes_only_the_sampler (h h' : list object) (self : loc)
    (r : float) (o : outcome unit)
    (Hrun : ProbabilitySampler.set_rate self r h = (o, h')) :
  length h' = length h
  /\ forall l : loc, l <> self -> h' !! l = h !! l.
Proof.
  destruct (h !! self) as [[| | | r0 b0] |] eqn:Hs;
    try (unfold ProbabilitySampler.set_rate, ProbabilitySampler.set__rate,
           bind, load, raise in Hrun; rewrite Hs in Hrun;
         injection Hrun as _ <-; split; reflexivity).
  destruct (ProbabilitySampler.get_bound_for_rate r) as [b | e] eqn:Hb.
  - rewrite (set_rate_run h self r0 b0 r b Hs Hb) in Hrun.
    injection Hrun as _ <-.
    split; [apply length_insert |].
    intros l Hl. apply list_lookup_insert_ne. congruence.
  - rewrite (set_rate_raise h self r0 b0 r e Hs Hb) in Hrun.
    injection Hrun as _ <-.
    split; [apply length_insert |].
    intros l Hl. apply list_lookup_insert_ne. congruence.
Qed.

Lemma set_rate_changes_only_the_sampler_witness :
  length (snd (ProbabilitySampler.set_rate 1%nat 0.25
                 [ODict ∅; OProbabilitySampler 0.5 (2 ^ 63)]))
  = 2%nat.
Proof.
  destruct (set_rate_changes_only_the_sampler
              [ODict ∅; OProbabilitySampler 0.5 (2 ^ 63)]
              (snd (ProbabilitySampler.set_rate 1%nat 0.25
                      [ODict ∅; OProbabilitySampler 0.5 (2 ^ 63)]))
              1%nat 0.25%float
              (fst (ProbabilitySampler.set_rate 1%nat 0.25
                      [ODict ∅; OProbabilitySampler 0.5 (2 ^ 63)]))
              (surjective_pairing _))
    as [Hlen _].
  exact Hlen.
Defined.



(** ** The bound of a rate between 0.0 and 1.0 *)

Lemma shr_1_double (M : Z) :
  0 <= M ->
  shr_1 (Build_shr_record (2 * M) false false) = Build_shr_record M false false.
Proof. intros HM. destruct M as [| q | q]; [reflexivity | reflexivity | lia]. Qed.

Lemma iter_shr_1_exact (p : positive) (M : Z) :
  0 <= M ->
  SpecFloat.iter_pos shr_1 p (Build_shr_record (2 ^ Z.pos p * M) false false)
  = Build_shr_record M false false.
Proof.
  revert M. induction p as [p IH | p IH |]; intros M HM.
  - replace (2 ^ Z.pos p~1 * M)
      with (2 * (2 ^ Z.pos p * (2 ^ Z.pos p * M))).
    + change (SpecFloat.iter_pos shr_1 p~1 ?x)
        with (SpecFloat.iter_pos shr_1 p
                (SpecFloat.iter_pos shr_1 p (shr_1 x))).
      rewrite shr_1_double by (apply Z.mul_nonneg_nonneg; lia).
      rewrite IH by (apply Z.mul_nonneg_nonneg; lia).
      apply IH. exact HM.
    + rewrite Pos2Z.inj_xI.
      replace (2 * Z.pos p + 1) with (1 + Z.pos p + Z.pos p) by lia.
      rewrite !Z.pow_add_r by lia. change (2 ^ 1) with 2. ring.
  - replace (2 ^ Z.pos p~0 * M) with (2 ^ Z.pos p * (2 ^ Z.pos p * M)).
    + change (SpecFloat.iter_pos shr_1 p~0 ?x)
        with (SpecFloat.iter_pos shr_1 p (SpecFloat.iter_pos shr_1 p x)).
      rewrite IH by (apply Z.mul_nonneg_nonneg; lia).
      apply IH. exact HM.
    + replace (Z.pos p~0) with (Z.pos p + Z.pos p) by lia.
      rewrite !Z.pow_add_r by lia. ring.
  - apply shr_1_double. exact HM.
Qed.

Lemma shr_exact (n M e : Z) :
  0 <= n -> 0 <= M ->
  shr (Build_shr_record (2 ^ n * M) false false) e n
  = (Build_shr_record M false false, e + n).
Proof.
  intros Hn HM. destruct n as [| p | p]; [| | lia].
  - simpl. rewrite Z.add_0_r. destruct M; reflexivity.
  - unfold shr. rewrite iter_shr_1_exact by exact HM. reflexivity.
Qed.

Lemma digits2_pos_mul_2_52 (m : positive) :
  Z.pos (digits2_pos (m * 4503599627370496)) = Z.pos (digits2_pos m) + 52.
Proof.
  rewrite !Pos.mul_xO_r, Pos.mul_1_r. simpl digits2_pos.
  rewrite !Pos2Z.inj_succ. lia.
Qed.

Lemma canonical_digits (m : positive) (e : Z) :
  bounded prec emax m e = true ->
  1 <= Z.pos (digits2_pos m) <= 53
  /\ -1074 <= e
  /\ (Z.pos (digits2_pos m) = 53 \/ e = -1074).
Proof.
  intros Hb. unfold bounded, canonical_mantissa in Hb.
  apply andb_true_iff in Hb. destruct Hb as [Hc _].
  apply Z.eqb_eq in Hc. unfold fexp, emin, prec, emax in Hc. lia.
Qed.

Lemma shr_fexp_product (m : positive) (e : Z) :
  bounded prec emax m e = true ->
  shr_fexp prec emax (Z.pos (m * 4503599627370496)) (e + 12) loc_Exact
  = (Build_shr_record (2 ^ (53 - Z.pos (digits2_pos m)) * Z.pos m)
       false false,
     e + 11 + Z.pos (digits2_pos m)).
Proof.
  intros Hb. destruct (canonical_digits m e Hb) as (Hd & He & Hcase).
  unfold shr_fexp. simpl Zdigits2. rewrite digits2_pos_mul_2_52.
  set (d := Z.pos (digits2_pos m)) in *.
  replace (fexp prec emax (d + 52 + (e + 12)) - (e + 12)) with (d - 1)
    by (unfold fexp, emin, prec, emax; lia).
  simpl shr_record_of_loc.
  replace (Z.pos (m * 4503599627370496))
    with (2 ^ (d - 1) * (2 ^ (53 - d) * Z.pos m)).
  - rewrite shr_exact by (try apply Z.mul_nonneg_nonneg; lia).
    f_equal. lia.
  - rewrite Pos2Z.inj_mul. change (Z.pos 4503599627370496) with (2 ^ 52).
    replace (2 ^ 52) with (2 ^ (d - 1) * 2 ^ (53 - d))
      by (rewrite <- Z.pow_add_r by lia; f_equal; lia).
    ring.
Qed.

Lemma shr_fexp_canonical (M e1 : Z) :
  0 <= M < 2 ^ 53 -> -1074 <= e1 ->
  shr_fexp prec emax M e1 loc_Exact
  = (Build_shr_record M false false, e1).
Proof.
  intros HM He1. unfold shr_fexp. simpl shr_record_of_loc.
  assert (Zdigits2 M <= 53) as Hd by (apply Zdigits2_le; lia).
  assert (fexp prec emax (Zdigits2 M + e1) - e1 <= 0) as Hn
    by (unfold fexp, emin, prec, emax; lia).
  destruct (fexp prec emax (Zdigits2 M + e1) - e1) as [| p | p];
    [reflexivity | lia | reflexivity].
Qed.

Lemma SFmul_by_2_64 (m : positive) (e : Z) :
  bounded prec emax m e = true -> e <= -52 ->
  exists p,
    SF64mul (S754_finite false m e) (S754_finite false 4503599627370496 12)
    = S754_finite false p (e + 11 + Z.pos (digits2_pos m))
    /\ Z.pos p = 2 ^ (53 - Z.pos (digits2_pos m)) * Z.pos m.
Proof.
  intros Hb He. destruct (canonical_digits m e Hb) as (Hd & Hemin & _).
  pose proof (digits2_pos_gt m) as Hgt.
  set (d := Z.pos (digits2_pos m)) in *.
  assert (0 < 2 ^ (53 - d) * Z.pos m < 2 ^ 53) as HM.
  { split; [apply Z.mul_pos_pos; [apply Z.pow_pos_nonneg |]; lia |].
    replace 53 with (53 - d + d) at 2 by lia.
    rewrite Z.pow_add_r by lia.
    apply Z.mul_lt_mono_pos_l; [apply Z.pow_pos_nonneg; lia | exact Hgt]. }
  unfold SF64mul, SFmul. simpl xorb. unfold binary_round_aux.
  rewrite (shr_fexp_product m e Hb). fold d. simpl shr_m.
  simpl loc_of_shr_record. simpl round_nearest_even.
  rewrite shr_fexp_canonical by lia. simpl shr_m.
  destruct (2 ^ (53 - d) * Z.pos m) as [| p | p] eqn:Hp; [lia | | lia].
  assert ((e + 11 + d <=? emax - prec) = true) as ->
    by (apply Z.leb_le; unfold emax, prec; lia).
  exists p. split; reflexivity.
Qed.

Lemma round_half_even_div_exact (N k : Z) :
  0 <= k -> round_half_even_div (2 ^ k * N) k = N.
Proof.
  intros Hk. unfold round_half_even_div.
  assert (0 < 2 ^ k) as Hpos by (apply Z.pow_pos_nonneg; lia).
  rewrite (Z.mul_comm (2 ^ k) N), Z.div_mul, Z.mod_mul by lia.
  destruct (Z.compare_spec (2 * 0) (2 ^ k)); [lia | reflexivity | lia].
Qed.

Lemma round_half_even_div_scale (j k M : Z) :
  0 <= j -> 0 <= k ->
  round_half_even_div (2 ^ j * M) (j + k) = round_half_even_div M k.
Proof.
  intros Hj Hk. unfold round_half_even_div.
  assert (0 < 2 ^ j) as Hpj by (apply Z.pow_pos_nonneg; lia).
  assert (0 < 2 ^ k) as Hpk by (apply Z.pow_pos_nonneg; lia).
  rewrite Z.pow_add_r by lia.
  rewrite Z.div_mul_cancel_l by lia.
  rewrite Z.mul_mod_distr_l by lia.
  replace (2 * (2 ^ j * (M mod 2 ^ k))) with (2 ^ j * (2 * (M mod 2 ^ k)))
    by ring.
  rewrite <- Zmult_compare_compat_l by lia.
  reflexivity.
Qed.

Lemma round_half_even_div_nearest (m k : Z) :
  0 <= k ->
  2 * Z.abs (round_half_even_div m k * 2 ^ k - m) <= 2 ^ k.
Proof.
  intros Hk. unfold round_half_even_div.
  assert (0 < 2 ^ k) as Hpos by (apply Z.pow_pos_nonneg; lia).
  pose proof (Z.div_mod m (2 ^ k) ltac:(lia)) as Hdm.
  pose proof (Z.mod_pos_bound m (2 ^ k) Hpos) as Hr.
  destruct (Z.compare_spec (2 * (m mod 2 ^ k)) (2 ^ k)) as [Heq | Hlt | Hgt];
    try destruct (Z.even (m / 2 ^ k)); nia.
Qed.

Lemma round_half_even_div_range (m k B : Z) :
  0 <= k -> 0 <= m <= B * 2 ^ k ->
  0 <= round_half_even_div m k <= B.
Proof.
  intros Hk Hm. unfold round_half_even_div.
  assert (0 < 2 ^ k) as Hpos by (apply Z.pow_pos_nonneg; lia).
  pose proof (Z.div_mod m (2 ^ k) ltac:(lia)) as Hdm.
  pose proof (Z.mod_pos_bound m (2 ^ k) Hpos) as Hr.
  assert (0 <= m / 2 ^ k) as Hq0 by (apply Z.div_pos; lia).
  assert (m / 2 ^ k <= B) as HqB
    by (apply Z.div_le_upper_bound; [lia | nia]).
  assert (m / 2 ^ k = B -> m mod 2 ^ k = 0) as Hfull by nia.
  destruct (Z.compare_spec (2 * (m mod 2 ^ k)) (2 ^ k)) as [Heq | Hlt | Hgt];
    try destruct (Z.even (m / 2 ^ k)); lia.
Qed.

Lemma nearest_integer_scaled_shift (j M E : Z) :
  0 <= j ->
  nearest_integer_scaled (2 ^ j * M) (E - j) = nearest_integer_scaled M E.
Proof.
  intros Hj. unfold nearest_integer_scaled.
  destruct (Z.leb_spec 0 (E - j)) as [H1 | H1];
    destruct (Z.leb_spec 0 E) as [H2 | H2]; try lia.
  - replace E with (j + (E - j)) at 2 by lia.
    rewrite Z.pow_add_r by lia. ring.
  - replace (2 ^ j * M) with (2 ^ (- (E - j)) * (M * 2 ^ E)).
    + apply round_half_even_div_exact. lia.
    + replace j with (- (E - j) + E) at 2 by lia.
      rewrite Z.pow_add_r by lia. ring.
  - replace (- (E - j)) with (j + - E) by lia.
    apply round_half_even_div_scale; lia.
Qed.

Lemma unit_interval_rate_shape (r : float) :
  (0 <=? r)%float = true -> (r <=? 1)%float = true ->
  (exists sg, Prim2SF r = S754_zero sg)
  \/ (exists m e,
        Prim2SF r = S754_finite false m e
        /\ bounded prec emax m e = true
        /\ e <= -52
        /\ Z.pos m <= 2 ^ (- e)).
Proof.
  intros H0 H1. rewrite leb_spec in H0, H1.
  pose proof (Prim2SF_valid r) as Hv.
  change (Prim2SF 0) with (S754_zero false) in H0.
  change (Prim2SF 1) with (S754_finite false 4503599627370496 (-52)) in H1.
  destruct (Prim2SF r) as [sg | sg | | sg m e].
  - left. exists sg. reflexivity.
  - destruct sg; discriminate.
  - discriminate.
  - destruct sg; [discriminate |].
    right. exists m, e. split; [reflexivity |]. split; [exact Hv |].
    destruct (canonical_digits m e Hv) as (Hd & _ & _).
    pose proof (digits2_pos_gt m) as Hgt.
    assert (Z.pos m < 2 ^ 53) as Hm.
    { eapply Z.lt_le_trans; [exact Hgt |]. apply Z.pow_le_mono_r; lia. }
    unfold SFleb, SFcompare in H1.
    destruct (Z.compare_spec e (-52)) as [-> | Hlt | Hgt'];
      [| | discriminate].
    + split; [lia |]. change (2 ^ (- -52)) with 4503599627370496.
      rewrite Pos.compare_cont_spec in H1. clear Hv Hd Hgt Hm H0.
      destruct (Pos.compare_spec m 4503599627370496) as [Hc | Hc | Hc];
        [| | discriminate].
      * rewrite Hc. apply Z.le_refl.
      * apply Z.lt_le_incl. exact (Pos2Z.pos_lt_pos _ _ Hc).
    + split; [lia |].
      assert (2 ^ 53 <= 2 ^ (- e)) by (apply Z.pow_le_mono_r; lia). lia.
Qed.

Lemma bound_of_unit_interval_rate (r : float) (m : positive) (e : Z) :
  Prim2SF r = S754_finite false m e ->
  bounded prec emax m e = true -> e <= -52 ->
  ProbabilitySampler.get_bound_for_rate r
  = Return (nearest_integer_scaled (Z.pos m) (e + 64)).
Proof.
  intros Hr Hb He.
  destruct (canonical_digits m e Hb) as (Hd & _ & _).
  destruct (SFmul_by_2_64 m e Hb He) as (p & Hmul & Hp).
  unfold ProbabilitySampler.get_bound_for_rate, float_mul_int.
  rewrite float_of_CHECK_BYTES_succ. unfold round.
  rewrite mul_spec, Hr.
  change (Prim2SF 0x1p64) with (S754_finite false 4503599627370496 12).
  rewrite Hmul. f_equal.
  rewrite <- (nearest_integer_scaled_shift
                (53 - Z.pos (digits2_pos m)) (Z.pos m) (e + 64)) by lia.
  rewrite <- Hp.
  replace (e + 64 - (53 - Z.pos (digits2_pos m)))
    with (e + 11 + Z.pos (digits2_pos m)) by lia.
  reflexivity.
Qed.

Lemma bound_of_zero_rate (r : float) (sg : bool) :
  Prim2SF r = S754_zero sg ->
  ProbabilitySampler.get_bound_for_rate r = Return 0.
Proof.
  intros Hr.
  unfold ProbabilitySampler.get_bound_for_rate, float_mul_int.
  rewrite float_of_CHECK_BYTES_succ. unfold round.
  rewrite mul_spec, Hr.
  change (Prim2SF 0x1p64) with (S754_finite false 4503599627370496 12).
  reflexivity.
Qed.

(** X12: for a rate between 0.0 and 1.0, of value [m * 2^e], the bound is
    the integer nearest to the exact product [m * 2^(e + 64)], ties to
    even: the float multiplication by [2^64] loses nothing, and the
    bound is within one half of the real number [rate * 2^64]. *)
Theorem bound_is_nearest_to_exact_product (r : float)
    (H0 : (0 <=? r)%float = true) (H1 : (r <=? 1)%float = true) :
  match Prim2SF r with
  | S754_zero _ => ProbabilitySampler.get_bound_for_rate r = Return 0
  | S754_finite sg m e =>
      sg = false
      /\ exists b,
           ProbabilitySampler.get_bound_for_rate r = Return b
           /\ b = nearest_integer_scaled (Z.pos m) (e + 64)
           /\ (0 <= e + 64 -> b = Z.pos m * 2 ^ (e + 64))
           /\ (e + 64 < 0 ->
               2 * Z.abs (b * 2 ^ (- (e + 64)) - Z.pos m)
               <= 2 ^ (- (e + 64)))
  | S754_nan | S754_infinity _ => False
  end.
Proof.
  destruct (unit_interval_rate_shape r H0 H1)
    as [[sg Hr] | (m & e & Hr & Hb & He & _)].
  - rewrite Hr. exact (bound_of_zero_rate r sg Hr).
  - rewrite Hr. split; [reflexivity |].
    exists (nearest_integer_scaled (Z.pos m) (e + 64)).
    split; [exact (bound_of_unit_interval_rate r m e Hr Hb He) |].
    split; [reflexivity |].
    unfold nearest_integer_scaled.
    destruct (Z.leb_spec 0 (e + 64)) as [Hge | Hlt].
    + split; [reflexivity | lia].
    + split; [lia |]. intros _.
      apply round_half_even_div_nearest. lia.
Qed.

Lemma bound_is_nearest_to_exact_product_witness :
  ProbabilitySampler.get_bound_for_rate 0.75 = Return (3 * 2 ^ 62).
Proof.
  pose proof (bound_is_nearest_to_exact_product 0.75 eq_refl eq_refl) as H.
  change (Prim2SF 0.75)
    with (S754_finite false 6755399441055744 (-53)) in H.
  destruct H as (_ & b & Hb & -> & _).
  exact Hb.
Defined.

Lemma unit_interval_bound_range (r : float) :
  (0 <=? r)%float = true -> (r <=? 1)%float = true ->
  exists b,
    ProbabilitySampler.get_bound_for_rate r = Return b
    /\ 0 <= b <= 2 ^ 64.
Proof.
  intros H0 H1.
  destruct (unit_interval_rate_shape r H0 H1)
    as [[sg Hr] | (m & e & Hr & Hb & He & Hm)].
  - exists 0. split; [exact (bound_of_zero_rate r sg Hr) | lia].
  - exists (nearest_integer_scaled (Z.pos m) (e + 64)).
    split; [exact (bound_of_unit_interval_rate r m e Hr Hb He) |].
    unfold nearest_integer_scaled.
    assert (0 < 2 ^ (- e)) as Hpe by (apply Z.pow_pos_nonneg; lia).
    destruct (Z.leb_spec 0 (e + 64)) as [Hge | Hlt].
    + assert (0 < 2 ^ (e + 64)) as Hp by (apply Z.pow_pos_nonneg; lia).
      assert (2 ^ (- e) * 2 ^ (e + 64) = 2 ^ 64) as Hsplit
        by (rewrite <- Z.pow_add_r by lia; f_equal; lia).
      split; [lia |]. rewrite <- Hsplit.
      apply Z.mul_le_mono_nonneg_r; lia.
    + apply round_half_even_div_range; [lia |].
      split; [lia |].
      replace (2 ^ 64 * 2 ^ (- (e + 64))) with (2 ^ (- e))
        by (rewrite <- Z.pow_add_r by lia; f_equal; lia).
      exact Hm.
Qed.

(** X13: for every rate between 0.0 and 1.0 the bound exists and lies
    between [0] and [2^64]; a sampler can be constructed with it, and
    holds that bound. *)
Theorem bound_of_unit_interval_rate_in_range (h : list object) (r : float)
    (H0 : (0 <=? r)%float = true) (H1 : (r <=? 1)%float = true) :
  exists b self h',
    ProbabilitySampler.get_bound_for_rate r = Return b
    /\ 0 <= b <= 2 ^ 64
    /\ ProbabilitySampler.__init__ r h = (Return self, h')
    /\ ProbabilitySampler.bound self h' = (Return b, h').
Proof.
  destruct (unit_interval_bound_range r H0 H1) as (b & Hb & Hrange).
  exists b, (length h), (h ++ [OProbabilitySampler r b]).
  split; [exact Hb |]. split; [exact Hrange |].
  split; [exact (init_run r b h Hb) |].
  apply bound_run with (r := r). apply lookup_alloc_new.
Qed.

Lemma bound_of_unit_interval_rate_in_range_witness :
  exists b,
    ProbabilitySampler.get_bound_for_rate 0x1.3333333333333p-2 = Return b
    /\ 0 <= b <= 2 ^ 64.
Proof.
  destruct (bound_of_unit_interval_rate_in_range [] 0x1.3333333333333p-2
              eq_refl eq_refl)
    as (b & _ & _ & Hb & Hrange & _).
  exists b. split; [exact Hb | exact Hrange].
Defined.

Lemma round_half_even_div_mono (m m' k : Z) :
  0 <= k -> m <= m' ->
  round_half_even_div m k <= round_half_even_div m' k.
Proof.
  intros Hk Hle. unfold round_half_even_div.
  assert (0 < 2 ^ k) as Hpos by (apply Z.pow_pos_nonneg; lia).
  pose proof (Z.div_mod m (2 ^ k) ltac:(lia)) as Hdm.
  pose proof (Z.mod_pos_bound m (2 ^ k) Hpos) as Hr.
  pose proof (Z.div_mod m' (2 ^ k) ltac:(lia)) as Hdm'.
  pose proof (Z.mod_pos_bound m' (2 ^ k) Hpos) as Hr'.
  pose proof (Z.div_le_mono m m' (2 ^ k) Hpos Hle) as Hq.
  set (q := m / 2 ^ k) in *. set (q' := m' / 2 ^ k) in *.
  set (x := m mod 2 ^ k) in *. set (x' := m' mod 2 ^ k) in *.
  destruct (Z.eq_dec q q') as [Heq | Hne].
  - rewrite <- Heq in *. assert (x <= x') as Hx by lia.
    destruct (Z.compare_spec (2 * x) (2 ^ k));
      destruct (Z.compare_spec (2 * x') (2 ^ k));
      try destruct (Z.even q); lia.
  - assert (q + 1 <= q') as Hstep by lia.
    destruct (Z.compare_spec (2 * x) (2 ^ k));
      destruct (Z.compare_spec (2 * x') (2 ^ k));
      try destruct (Z.even q); try destruct (Z.even q'); lia.
Qed.

Lemma nearest_integer_scaled_mono (m m' E : Z) :
  m <= m' -> nearest_integer_scaled m E <= nearest_integer_scaled m' E.
Proof.
  intros Hle. unfold nearest_integer_scaled.
  destruct (Z.leb_spec 0 E) as [HE | HE].
  - apply Z.mul_le_mono_nonneg_r; [apply Z.pow_nonneg; lia | exact Hle].
  - apply round_half_even_div_mono; lia.
Qed.

Lemma ordered_rates_shape (r1 r2 : float) (m2 : positive) (e2 : Z) :
  (0 <=? r1)%float = true -> (r1 <=? r2)%float = true ->
  Prim2SF r2 = S754_finite false m2 e2 ->
  bounded prec emax m2 e2 = true ->
  (exists sg, Prim2SF r1 = S754_zero sg)
  \/ (exists m1 e1,
        Prim2SF r1 = S754_finite false m1 e1
        /\ bounded prec emax m1 e1 = true
        /\ e1 <= e2
        /\ Z.pos m1 <= 2 ^ (e2 - e1) * Z.pos m2).
Proof.
  intros H0 H12 Hr2 Hb2. rewrite leb_spec in H0, H12.
  pose proof (Prim2SF_valid r1) as Hv.
  change (Prim2SF 0) with (S754_zero false) in H0.
  rewrite Hr2 in H12.
  destruct (Prim2SF r1) as [sg | sg | | sg m1 e1].
  - left. exists sg. reflexivity.
  - destruct sg; discriminate.
  - discriminate.
  - destruct sg; [discriminate |].
    right. exists m1, e1. split; [reflexivity |]. split; [exact Hv |].
    destruct (canonical_digits m1 e1 Hv) as (Hd1 & Hmin1 & _).
    destruct (canonical_digits m2 e2 Hb2) as (Hd2 & _ & Hcase2).
    pose proof (digits2_pos_gt m1) as Hgt1.
    unfold SFleb, SFcompare in H12.
    destruct (Z.compare_spec e1 e2) as [-> | Hlt | Hgt];
      [| | discriminate].
    + split; [lia |]. rewrite Z.sub_diag, Z.mul_1_l.
      rewrite Pos.compare_cont_spec in H12.
      destruct (Pos.compare_spec m1 m2) as [Hc | Hc | Hc];
        [| | discriminate].
      * rewrite Hc. apply Z.le_refl.
      * apply Z.lt_le_incl. exact (Pos2Z.pos_lt_pos _ _ Hc).
    + split; [lia |].
      assert (Z.pos (digits2_pos m2) = 53) as Hd53 by lia.
      assert (2 ^ 52 <= Z.pos m2) as Hm2.
      { pose proof (Pos.size_le m2) as Hs.
        rewrite <- digits2_pos_size in Hs.
        apply Pos2Z.pos_le_pos in Hs. rewrite Pos2Z.inj_pow in Hs.
        rewrite Hd53 in Hs. change (Z.pos m2~0) with (2 * Z.pos m2) in Hs.
        change (Z.pos 2 ^ 53) with (2 * 2 ^ 52) in Hs. lia. }
      assert (Z.pos m1 < 2 ^ 53) as Hm1.
      { eapply Z.lt_le_trans; [exact Hgt1 |].
        apply Z.pow_le_mono_r; lia. }
      assert (2 ^ 1 <= 2 ^ (e2 - e1)) as Hpow
        by (apply Z.pow_le_mono_r; lia).
      change (2 ^ 1) with 2 in Hpow. change (2 ^ 53) with (2 * 2 ^ 52) in Hm1.
      nia.
Qed.

Lemma bounds_of_ordered_rates (r1 r2 : float) :
  (0 <=? r1)%float = true -> (r1 <=? r2)%float = true ->
  (r2 <=? 1)%float = true ->
  exists b1 b2,
    ProbabilitySampler.get_bound_for_rate r1 = Return b1
    /\ ProbabilitySampler.get_bound_for_rate r2 = Return b2
    /\ 0 <= b1 <= b2.
Proof.
  intros H0 H12 H1.
  assert ((0 <=? r2)%float = true) as H02.
  { rewrite leb_spec in *.
    change (Prim2SF 0) with (S754_zero false) in *.
    destruct (Prim2SF r1) as [sg1 | sg1 | | sg1 m1 e1];
      destruct (Prim2SF r2) as [sg2 | sg2 | | sg2 m2 e2];
      try discriminate; try reflexivity;
      try (destruct sg1; discriminate);
      try (destruct sg2; [discriminate | reflexivity]);
      destruct sg1; try discriminate; destruct sg2; try discriminate;
      reflexivity. }
  destruct (unit_interval_bound_range r2 H02 H1)
    as (b2 & Hb2 & Hrange2).
  destruct (unit_interval_rate_shape r2 H02 H1)
    as [[sg2 Hr2] | (m2 & e2 & Hr2 & Hv2 & He2 & _)].
  - assert (exists sg1, Prim2SF r1 = S754_zero sg1) as [sg1 Hr1].
    { rewrite leb_spec in H0, H12. rewrite Hr2 in H12.
      change (Prim2SF 0) with (S754_zero false) in H0.
      destruct (Prim2SF r1) as [sg1 | sg1 | | sg1 m1 e1];
        try discriminate; try (destruct sg1; discriminate).
      exists sg1. reflexivity. }
    exists 0, b2. split; [exact (bound_of_zero_rate r1 sg1 Hr1) |].
    split; [exact Hb2 | lia].
  - destruct (ordered_rates_shape r1 r2 m2 e2 H0 H12 Hr2 Hv2)
      as [[sg1 Hr1] | (m1 & e1 & Hr1 & Hv1 & He & Hm)].
    + exists 0, b2. split; [exact (bound_of_zero_rate r1 sg1 Hr1) |].
      split; [exact Hb2 | lia].
    + exists (nearest_integer_scaled (Z.pos m1) (e1 + 64)), b2.
      split; [apply (bound_of_unit_interval_rate r1 m1 e1 Hr1 Hv1); lia |].
      split; [exact Hb2 |].
      rewrite (bound_of_unit_interval_rate r2 m2 e2 Hr2 Hv2 He2) in Hb2.
      injection Hb2 as <-.
      rewrite <- (nearest_integer_scaled_shift (e2 - e1) (Z.pos m2)
                    (e2 + 64)) by lia.
      replace (e2 + 64 - (e2 - e1)) with (e1 + 64) by lia.
      split; [| apply nearest_integer_scaled_mono; exact Hm].
      unfold nearest_integer_scaled.
      destruct (Z.leb_spec 0 (e1 + 64)).
      * apply Z.mul_nonneg_nonneg; [lia | apply Z.pow_nonneg; lia].
      * assert (0 < 2 ^ (- (e1 + 64))) by (apply Z.pow_pos_nonneg; lia).
        apply (round_half_even_div_range (Z.pos m1) (- (e1 + 64))
                 (Z.pos m1)); [lia |].
        split; [lia | nia].
Qed.

(** X14: a higher rate samples at least the same traces: for rates
    [0.0 <= r1 <= r2 <= 1.0] the bounds are ordered, and every span that
    [ProbabilitySampler(r1)] samples is sampled by
    [ProbabilitySampler(r2)] too. *)
Theorem higher_rate_samples_superset (h1 h2 : list object) (r1 r2 : float)
    (pc : option SpanContext.t) (t s : Z) (name : string)
    (links : list Link.t)
    (H0 : (0 <=? r1)%float = true) (H12 : (r1 <=? r2)%float = true)
    (H1 : (r2 <=? 1)%float = true) :
  exists b1 b2 self1 g1 self2 g2 d1 g1' v1 d2 g2' v2,
    ProbabilitySampler.get_bound_for_rate r1 = Return b1
    /\ ProbabilitySampler.get_bound_for_rate r2 = Return b2
    /\ b1 <= b2
    /\ ProbabilitySampler.__init__ r1 h1 = (Return self1, g1)
    /\ ProbabilitySampler.__init__ r2 h2 = (Return self2, g2)
    /\ Sampler.should_sample self1 pc t s name links g1 = (Return d1, g1')
    /\ Decision.get_sampled d1 g1' = (Return v1, g1')
    /\ Sampler.should_sample self2 pc t s name links g2 = (Return d2, g2')
    /\ Decision.get_sampled d2 g2' = (Return v2, g2')
    /\ (v1 = true -> v2 = true).
Proof.
  destruct (bounds_of_ordered_rates r1 r2 H0 H12 H1)
    as (b1 & b2 & Hb1 & Hb2 & Hle).
  eexists b1, b2, _, _, _, _, _, _, (sampled_for b1 pc t), _, _,
    (sampled_for b2 pc t).
  split; [exact Hb1 |]. split; [exact Hb2 |]. split; [lia |].
  split; [exact (init_run r1 b1 h1 Hb1) |].
  split; [exact (init_run r2 b2 h2 Hb2) |].
  split; [apply should_sample_run with (r := r1) (b := b1);
          apply lookup_alloc_new |].
  split; [apply get_sampled_new |].
  split; [apply should_sample_run with (r := r2) (b := b2);
          apply lookup_alloc_new |].
  split; [apply get_sampled_new |].
  destruct pc as [pc |]; simpl; [auto |].
  rewrite !Z.ltb_lt. lia.
Qed.

Lemma higher_rate_samples_superset_witness :
  exists b1 b2,
    ProbabilitySampler.get_bound_for_rate 0.25 = Return b1
    /\ ProbabilitySampler.get_bound_for_rate 0.75 = Return b2
    /\ b1 <= b2.
Proof.
  destruct (higher_rate_samples_superset [] [] 0.25 0.75 None 5 7 "root" []
              eq_refl eq_refl eq_refl)
    as (b1 & b2 & _ & _ & _ & _ & _ & _ & _ & _ & _ & _ & Hb1 & Hb2 & Hle & _).
  exists b1, b2. auto.
Defined.

(** ** Reading a rendered id back *)

Lemma hex_value_leading_zeros (k : nat) (l : list ascii) :
  hex_value (repeat "0"%char k ++ l) = hex_value l.
Proof.
  unfold hex_value. rewrite fold_left_app.
  replace (fold_left (fun acc c => 16 * acc + hex_digit_value c)
             (repeat "0"%char k) 0) with 0; [reflexivity |].
  induction k as [| k IH]; simpl; [reflexivity | exact IH].
Qed.

Lemma hex_value_hex (n : Z) : 0 <= n -> hex_value (hex n) = n.
Proof.
  intros Hn. unfold hex. rewrite hex_value_digits.
  apply Z.mod_small. split; [exact Hn | apply hex_width_covers; exact Hn].
Qed.

Lemma signed_hex_value_unsigned (l : list ascii) :
  l <> [] -> Forall (fun c => is_hex_digit c = true) l ->
  signed_hex_value l = hex_value l.
Proof.
  intros Hne Hall. destruct l as [| c l]; [congruence |].
  apply Forall_cons_iff in Hall. destruct Hall as [Hc _].
  unfold signed_hex_value.
  destruct (Ascii.eqb_spec c "-") as [-> | _]; [discriminate | reflexivity].
Qed.

Lemma hex_width_pos (n : Z) : (1 <= hex_width n)%nat.
Proof.
  unfold hex_width. destruct (Z.eqb_spec n 0) as [| Hne]; [lia |].
  destruct (Z.le_gt_cases n 0) as [Hneg | Hpos].
  - rewrite Z.log2_nonpos by exact Hneg. change (1 <= 1)%nat. lia.
  - pose proof (Z.log2_nonneg n).
    assert (1 <= (Z.log2 n + 1 + 3) / 4)
      by (apply Z.div_le_lower_bound; lia).
    lia.
Qed.

Lemma format_0x_round_trip (w : nat) (n : Z) :
  signed_hex_value (format_0x w n) = n.
Proof.
  unfold format_0x. destruct (Z.ltb_spec n 0) as [Hneg | Hpos].
  - simpl. rewrite hex_value_leading_zeros, hex_value_hex by lia. lia.
  - simpl app. rewrite Z.abs_eq by exact Hpos.
    rewrite signed_hex_value_unsigned.
    + rewrite hex_value_leading_zeros. apply hex_value_hex. exact Hpos.
    + intros Hnil. apply (f_equal (@length ascii)) in Hnil.
      rewrite length_app in Hnil. unfold hex in Hnil.
      rewrite hex_digits_length in Hnil.
      pose proof (hex_width_pos n). simpl in Hnil. lia.
    + apply Forall_app. split.
      * apply Forall_forall. intros c Hc. apply list_elem_of_In in Hc.
        apply repeat_spec in Hc.
        subst c. reflexivity.
      * apply hex_digits_are_hex.
Qed.

Lemma string_of_list_ascii_inj (l1 l2 : list ascii) :
  string_of_list_ascii l1 = string_of_list_ascii l2 -> l1 = l2.
Proof.
  intros H. apply (f_equal list_ascii_of_string) in H.
  rewrite !list_ascii_of_string_of_list_ascii in H. exact H.
Qed.

(** X15: the rendering of an id can be read back: the hexadecimal value
    of what follows ["0x"], with its sign, is the id, for every integer;
    so [format_trace_id] and [format_span_id] never render two different
    ids the same way. *)
Theorem rendered_ids_read_back (a b : Z) :
  signed_hex_value (format_0x 32 a) = a
  /\ signed_hex_value (format_0x 16 a) = a
  /\ format_trace_id a
     = string_of_list_ascii (["0"; "x"]%char ++ format_0x 32 a)
  /\ format_span_id a
     = string_of_list_ascii (["0"; "x"]%char ++ format_0x 16 a)
  /\ (format_trace_id a = format_trace_id b -> a = b)
  /\ (format_span_id a = format_span_id b -> a = b).
Proof.
  split; [apply format_0x_round_trip |].
  split; [apply format_0x_round_trip |].
  split; [reflexivity |]. split; [reflexivity |].
  split; intros Heq; apply string_of_list_ascii_inj in Heq;
    injection Heq as Heq.
  - rewrite <- (format_0x_round_trip 32 a), <- (format_0x_round_trip 32 b),
      Heq. reflexivity.
  - rewrite <- (format_0x_round_trip 16 a), <- (format_0x_round_trip 16 b),
      Heq. reflexivity.
Qed.

Lemma format_0x_length (w : nat) (n : Z) :
  0 <= n -> length (format_0x w n) = Nat.max w (hex_width n).
Proof.
  intros Hn. unfold format_0x, hex.
  destruct (Z.ltb_spec n 0) as [Hneg | _]; [lia |].
  rewrite Z.abs_eq by exact Hn. simpl.
  rewrite length_app, repeat_length, hex_digits_length. lia.
Qed.

(** X16: a non-negative id is never truncated and never rendered
    shorter than the width: the trace id takes [max 32 k] digits and the
    span id [max 16 k], where [k] is the number of hexadecimal digits of
    the id; the rendering has the fixed width exactly when the id is
    below [2^128], respectively [2^64]. *)
Theorem rendered_width_is_fixed_only_in_range (n : Z) (Hn : 0 <= n) :
  String.length (format_trace_id n) = (2 + Nat.max 32 (hex_width n))%nat
  /\ String.length (format_span_id n) = (2 + Nat.max 16 (hex_width n))%nat
  /\ (String.length (format_trace_id n) = 34%nat <-> n < 2 ^ 128)
  /\ (String.length (format_span_id n) = 18%nat <-> n < 2 ^ 64).
Proof.
  assert (String.length (format_trace_id n)
          = (2 + Nat.max 32 (hex_width n))%nat) as Lt
    by (unfold format_trace_id;
        rewrite string_of_list_ascii_length, length_app, format_0x_length
          by exact Hn; reflexivity).
  assert (String.length (format_span_id n)
          = (2 + Nat.max 16 (hex_width n))%nat) as Ls
    by (unfold format_span_id;
        rewrite string_of_list_ascii_length, length_app, format_0x_length
          by exact Hn; reflexivity).
  pose proof (hex_width_covers n Hn) as Hcov.
  split; [exact Lt |]. split; [exact Ls |].
  split; split; intros H.
  - assert (hex_width n <= 32)%nat as Hw by lia.
    eapply Z.lt_le_trans; [exact Hcov |].
    change (2 ^ 128) with (16 ^ Z.of_nat 32).
    apply Z.pow_le_mono_r; lia.
  - pose proof (hex_width_le 32 n ltac:(lia) (conj Hn H)). lia.
  - assert (hex_width n <= 16)%nat as Hw by lia.
    eapply Z.lt_le_trans; [exact Hcov |].
    change (2 ^ 64) with (16 ^ Z.of_nat 16).
    apply Z.pow_le_mono_r; lia.
  - pose proof (hex_width_le 16 n ltac:(lia) (conj Hn H)). lia.
Qed.

Lemma rendered_width_is_fixed_only_in_range_witness :
  String.length (format_span_id (2 ^ 64)) = 19%nat.
Proof.
  destruct (rendered_width_is_fixed_only_in_range (2 ^ 64) ltac:(lia))
    as (_ & Ls & _).
  exact Ls.
Defined.
